(** * The completion-stream SQL extractor of mindsdb_sdk/utils/agents.py

    A shallow embedding of [MindsDBSQLStreamParser]: the generator
    [stream_and_parse_sql_query] and its consumer [process_stream], over
    dynamically typed Python values, with Python's exceptions as an error
    result and the logger as an abstract sink.

    Further on: the constructor of the parser and the module logger it
    shares; the collections of skills.py and agents.py over a REST client
    taken as a parameter; and the options of [Model._retrain] of model.py. *)

From Stdlib Require Import String Ascii List Bool ZArith.
From Stdlib Require Import Lia PeanoNat.
Import ListNotations.
Open Scope string_scope.

Set Warnings "-register-all".

(** ** Python values

    The chunks of a completion stream are decoded JSON.  A dict is an
    association list in insertion order (Python dicts iterate in insertion
    order); lookup takes the first binding of a key.  JSON numbers are kept as
    integers: the parser only ever looks at the truth value and at the type of
    a number. *)

Inductive pyval : Type :=
| PNone : pyval
| PBool : bool -> pyval
| PInt : Z -> pyval
| PStr : string -> pyval
| PList : list pyval -> pyval
| PDict : list (string * pyval) -> pyval.

Inductive exn : Type :=
| TypeError : exn
| KeyError : exn.

(** A computation that either raises or returns. *)
Inductive result (A : Type) : Type :=
| Raise : exn -> result A
| Ok : A -> result A.
Arguments Raise {A} _.
Arguments Ok {A} _.

Definition bind {A B : Type} (r : result A) (k : A -> result B) : result B :=
  match r with
  | Raise e => Raise e
  | Ok a => k a
  end.

Notation "x <- r ;; k" := (bind r (fun x => k))
  (at level 61, r at next level, right associativity).

(** ** Strings *)

Module Str.

Definition backslash : ascii := Ascii.ascii_of_nat 92.
Definition squote : ascii := Ascii.ascii_of_nat 39.
Definition dquote : ascii := Ascii.ascii_of_nat 34.
Definition newline : ascii := Ascii.ascii_of_nat 10.

(** [needle in hay] on two [str]. *)
Fixpoint contains (needle hay : string) : bool :=
  if String.prefix needle hay then true
  else match hay with
       | EmptyString => false
       | String _ hay' => contains needle hay'
       end.

(** The call [replace] of the source on [group(1)]: every pair of a
    backslash and a single quote, scanning from the left, becomes a bare
    single quote. *)
Fixpoint unescape (s : string) : string :=
  match s with
  | EmptyString => EmptyString
  | String c s' =>
      match s' with
      | String c' s'' =>
          if (Ascii.eqb c backslash && Ascii.eqb c' squote)%bool
          then String squote (unescape s'')
          else String c (unescape s')
      | EmptyString => String c EmptyString
      end
  end.

(** The string left after the literal [lit] at the head of [s]. *)
Fixpoint strip_prefix (lit s : string) : option string :=
  match lit with
  | EmptyString => Some s
  | String a lit' =>
      match s with
      | String b s' => if Ascii.eqb a b then strip_prefix lit' s' else None
      | EmptyString => None
      end
  end.

(** The tail of the pattern, the lazy group [(.*?)] and the closing double
    quote, tried at the head of [s]: the group takes as few characters as it
    can, [.] takes any character but a newline, and the closing quote ends
    the match. *)
Fixpoint lazy_group (s : string) : option string :=
  match s with
  | EmptyString => None
  | String c s' =>
      if Ascii.eqb c dquote then Some EmptyString
      else if Ascii.eqb c newline then None
      else option_map (String c) (lazy_group s')
  end.

Definition tool_input_lit : string :=
  "tool_input=" ++ String dquote EmptyString.

(** The whole pattern, the literal and then the quoted lazy group, tried at
    the head of [s]. *)
Definition match_here (s : string) : option string :=
  match strip_prefix tool_input_lit s with
  | Some rest => lazy_group rest
  | None => None
  end.

(** [re.search] with the pattern of the source on [s], giving [group(1)] of
    the leftmost match. *)
Fixpoint re_search (s : string) : option string :=
  match match_here s with
  | Some p => Some p
  | None =>
      match s with
      | EmptyString => None
      | String _ s' => re_search s'
      end
  end.

Definition is_empty (s : string) : bool :=
  match s with
  | EmptyString => true
  | String _ _ => false
  end.

Fixpoint mem (c : ascii) (s : string) : bool :=
  match s with
  | EmptyString => false
  | String a s' => (Ascii.eqb c a || mem c s')%bool
  end.

End Str.

(** ** Python's operations on values, as far as the parser uses them *)

Module Py.

(** [bool(v)]. *)
Definition truthy (v : pyval) : bool :=
  match v with
  | PNone => false
  | PBool b => b
  | PInt z => negb (Z.eqb z 0)
  | PStr s => negb (Str.is_empty s)
  | PList l => match l with [] => false | _ :: _ => true end
  | PDict d => match d with [] => false | _ :: _ => true end
  end.

Fixpoint dict_get (k : string) (d : list (string * pyval)) : option pyval :=
  match d with
  | [] => None
  | (k', v) :: d' => if String.eqb k k' then Some v else dict_get k d'
  end.

Definition is_str (k : string) (v : pyval) : bool :=
  match v with
  | PStr s => String.eqb s k
  | _ => false
  end.

(** [k in v] for a string [k]: substring of a [str], element of a [list],
    key of a [dict]; the other types are not containers. *)
Definition contains (k : string) (v : pyval) : result bool :=
  match v with
  | PStr s => Ok (Str.contains k s)
  | PList l => Ok (existsb (is_str k) l)
  | PDict d => Ok (match dict_get k d with Some _ => true | None => false end)
  | PNone | PBool _ | PInt _ => Raise TypeError
  end.

(** [v[k]] for a string [k]. *)
Definition getitem (v : pyval) (k : string) : result pyval :=
  match v with
  | PDict d => match dict_get k d with
               | Some x => Ok x
               | None => Raise KeyError
               end
  | _ => Raise TypeError
  end.

Fixpoint chars (s : string) : list pyval :=
  match s with
  | EmptyString => []
  | String c s' => PStr (String c EmptyString) :: chars s'
  end.

(** The items [for x in v] runs over. *)
Definition iter (v : pyval) : result (list pyval) :=
  match v with
  | PList l => Ok l
  | PStr s => Ok (chars s)
  | PDict d => Ok (map (fun kv => PStr (fst kv)) d)
  | PNone | PBool _ | PInt _ => Raise TypeError
  end.

(** [re.search(pattern, v)] with [group(1)] of the match; the pattern wants
    a [str]. *)
Definition re_search (v : pyval) : result (option string) :=
  match v with
  | PStr s => Ok (Str.re_search s)
  | _ => Raise TypeError
  end.

(** [acc += v] for a [str] accumulator. *)
Definition str_iadd (acc : string) (v : pyval) : result string :=
  match v with
  | PStr s => Ok (acc ++ s)
  | _ => Raise TypeError
  end.

End Py.

(** ** The parser *)

Definition marker : string := "sql_db_query".

(** The dict [{'output': ..., 'sql_query': ...}] the generator yields. *)
Record yielded : Type := mk_yielded {
  y_output : pyval;
  y_sql_query : option string
}.

Definition is_some {A : Type} (o : option A) : bool :=
  match o with Some _ => true | None => false end.

(** The loop over [chunk['actions']].  It gives the value of [sql_query] when
    the loop ends; the loop sets [sql_query_found] exactly when that value is
    not [None].  With the flag already set the loop still visits every
    action. *)
Fixpoint scan_actions (sql_query_found : bool) (actions : list pyval)
  : result (option string) :=
  match actions with
  | [] => Ok None
  | action :: rest =>
      has_tool <- Py.contains "tool" action ;;
      if has_tool then
        tool <- Py.getitem action "tool" ;;
        is_sql <- Py.contains marker tool ;;
        if is_sql then
          m <- Py.re_search tool ;;
          match m with
          | Some group1 =>
              if negb sql_query_found then Ok (Some (Str.unescape group1))
              else scan_actions sql_query_found rest
          | None => scan_actions sql_query_found rest
          end
        else scan_actions sql_query_found rest
      else scan_actions sql_query_found rest
  end.

Inductive level : Type := DEBUG | INFO.

(** What the parser hands to its logger. *)
Inductive log_msg : Type :=
| LogChunk : pyval -> log_msg
| LogStart : log_msg
| LogOutput : pyval -> log_msg
| LogExtracted : string -> log_msg
| LogFull : string -> log_msg
| LogFinal : option string -> log_msg.

Section Parser.

(** The logger of the parser object: whatever it keeps (level, handlers,
    lines written) is [Sink], and a logging call is [log]. *)
Variable Sink : Type.
Variable log : level -> log_msg -> Sink -> Sink.

(** One turn of the generator's loop, from the chunk to the [yield]: the
    yielded dict and the new value of [sql_query_found]. *)
Definition gen_body (sql_query_found : bool) (chunk : pyval) (sink : Sink)
  : result (yielded * bool) * Sink :=
  let sink := log DEBUG (LogChunk chunk) sink in
  let r :=
    match chunk with
    | PDict d =>
        let output := match Py.dict_get "output" d with
                      | Some v => v
                      | None => PStr ""
                      end in
        match Py.dict_get "actions" d with
        | Some actions =>
            if Py.truthy actions then
              items <- Py.iter actions ;;
              sql_query <- scan_actions sql_query_found items ;;
              Ok (mk_yielded output sql_query,
                  (sql_query_found || is_some sql_query)%bool)
            else Ok (mk_yielded output None, sql_query_found)
        | None => Ok (mk_yielded output None, sql_query_found)
        end
    | PStr s => Ok (mk_yielded (PStr s) None, sql_query_found)
    | _ => Ok (mk_yielded (PStr "") None, sql_query_found)
    end in
  (r, sink).

(** [stream_and_parse_sql_query] run to its end on its own: what it yields,
    and the exception that ended it, if one did. *)
Fixpoint stream_loop (completion_stream : list pyval) (sql_query_found : bool)
         (sink : Sink) : (list yielded * option exn) * Sink :=
  match completion_stream with
  | [] => (([], None), sink)
  | chunk :: rest =>
      match gen_body sql_query_found chunk sink with
      | (Raise e, sink) => (([], Some e), sink)
      | (Ok (y, found), sink) =>
          let '((ys, e), sink) := stream_loop rest found sink in
          ((y :: ys, e), sink)
      end
  end.

Definition stream_and_parse_sql_query (completion_stream : list pyval)
           (sink : Sink) : (list yielded * option exn) * Sink :=
  stream_loop completion_stream false sink.

(** The body of the loop of [process_stream] on one yielded dict. *)
Definition consume (y : yielded) (full_response : string)
           (sql_query : option string) (sink : Sink)
  : result (string * option string) * Sink :=
  let '(r, sink) :=
    if Py.truthy (y_output y)
    then (Py.str_iadd full_response (y_output y),
          log INFO (LogOutput (y_output y)) sink)
    else (Ok full_response, sink) in
  match r with
  | Raise e => (Raise e, sink)
  | Ok full_response =>
      match y_sql_query y, sql_query with
      | Some q, None =>
          if negb (Str.is_empty q)
          then (Ok (full_response, Some q), log INFO (LogExtracted q) sink)
          else (Ok (full_response, None), sink)
      | _, _ => (Ok (full_response, sql_query), sink)
      end
  end.

(** The loop of [process_stream] pulling from the generator: each chunk goes
    through the generator's body and then through the consumer's. *)
Fixpoint process_loop (completion_stream : list pyval) (sql_query_found : bool)
         (full_response : string) (sql_query : option string) (sink : Sink)
  : result (string * option string) * Sink :=
  match completion_stream with
  | [] => (Ok (full_response, sql_query), sink)
  | chunk :: rest =>
      match gen_body sql_query_found chunk sink with
      | (Raise e, sink) => (Raise e, sink)
      | (Ok (y, found), sink) =>
          match consume y full_response sql_query sink with
          | (Raise e, sink) => (Raise e, sink)
          | (Ok (full, sql), sink) => process_loop rest found full sql sink
          end
      end
  end.

Definition process_stream (completion_stream : list pyval) (sink : Sink)
  : result (string * option string) * Sink :=
  let sink := log INFO LogStart sink in
  match process_loop completion_stream false "" None sink with
  | (Raise e, sink) => (Raise e, sink)
  | (Ok (full_response, sql_query), sink) =>
      let sink := log INFO (LogFull full_response) sink in
      let sink := log INFO (LogFinal sql_query) sink in
      (Ok (full_response, sql_query), sink)
  end.

End Parser.

Arguments gen_body {Sink} log.
Arguments stream_loop {Sink} log.
Arguments stream_and_parse_sql_query {Sink} log.
Arguments consume {Sink} log.
Arguments process_loop {Sink} log.
Arguments process_stream {Sink} log.

(** A logger that drops everything, for running the parser on examples. *)
Definition no_log : level -> log_msg -> unit -> unit := fun _ _ s => s.

(** ** The vocabulary of the properties *)

(** The text a value adds to [full_response]: a [str] adds itself, a false
    value adds nothing. *)
Definition text_of (v : pyval) : string :=
  match v with
  | PStr s => s
  | _ => ""
  end.

(** The [output] of a chunk: the chunk itself when it is text, its ['output']
    field when it is a record ([''] when the field is absent). *)
Definition chunk_output (chunk : pyval) : pyval :=
  match chunk with
  | PStr s => PStr s
  | PDict d => match Py.dict_get "output" d with
               | Some v => v
               | None => PStr ""
               end
  | _ => PStr ""
  end.

Definition join (l : list string) : string := fold_right String.append "" l.

Definition concat_outputs (chunks : list pyval) : string :=
  join (map (fun c => text_of (chunk_output c)) chunks).

(** The action records of a chunk, in order. *)
Definition chunk_actions (chunk : pyval) : list pyval :=
  match chunk with
  | PDict d => match Py.dict_get "actions" d with
               | Some (PList l) => l
               | _ => []
               end
  | _ => []
  end.

(** The actions of a whole stream, in stream order. *)
Definition stream_actions (chunks : list pyval) : list pyval :=
  flat_map chunk_actions chunks.

Definition action_tool (action : pyval) : option string :=
  match action with
  | PDict d => match Py.dict_get "tool" d with
               | Some (PStr t) => Some t
               | _ => None
               end
  | _ => None
  end.

(** The payload an action carries, when it is a matching action: its tool
    string holds the marker and the pattern finds a quoted argument in it. *)
Definition payload (action : pyval) : option string :=
  match action_tool action with
  | Some t => if Str.contains marker t then Str.re_search t else None
  | None => None
  end.

Fixpoint first_some {A B : Type} (f : A -> option B) (l : list A) : option B :=
  match l with
  | [] => None
  | x :: l' => match f x with
               | Some b => Some b
               | None => first_some f l'
               end
  end.

(** What the consumer keeps of a yielded query: an empty string is false. *)
Definition kept (q : option string) : option string :=
  match q with
  | Some s => if Str.is_empty s then None else Some s
  | None => None
  end.

(** The shapes of the data model: a chunk is text, or a record whose ['output'],
    when present, is text and whose ['actions'], when present, is a list of
    records whose ['tool'], when present, is text. *)
Definition well_shaped_action (action : pyval) : bool :=
  match action with
  | PDict d => match Py.dict_get "tool" d with
               | None | Some (PStr _) => true
               | Some _ => false
               end
  | _ => false
  end.

Definition well_shaped (chunk : pyval) : bool :=
  match chunk with
  | PStr _ => true
  | PDict d =>
      match Py.dict_get "output" d with
      | None | Some (PStr _) => true
      | Some _ => false
      end
      &&
      match Py.dict_get "actions" d with
      | None => true
      | Some (PList l) => forallb well_shaped_action l
      | Some _ => false
      end
  | _ => false
  end.

(** Builders for concrete streams. *)
Definition quoted (s : string) : string :=
  String Str.dquote (s ++ String Str.dquote "").

Definition sql_tool (query : string) : string :=
  "sql_db_query tool_input=" ++ quoted query.

Definition action_of (tool : string) : pyval := PDict [("tool", PStr tool)].

Definition chunk_of (output : string) (tools : list string) : pyval :=
  PDict [("output", PStr output); ("actions", PList (map action_of tools))].

(** ** Auxiliary definitions and concrete streams *)

(** The escaped single quote, as two characters. *)
Definition escaped_quote : string :=
  String Str.backslash (String Str.squote "").

Fixpoint gen_yields (found : bool) (chunks : list pyval) : list yielded :=
  match chunks with
  | [] => []
  | c :: rest =>
      let q := first_some payload (chunk_actions c) in
      mk_yielded (PStr (text_of (chunk_output c)))
                 (if found then None else option_map Str.unescape q)
      :: gen_yields (found || is_some q)%bool rest
  end.

(** The scenario of the specification: three records, the second carrying the
    query. *)
Definition scenario : list pyval :=
  [ PDict [("output", PStr "Thinking...")];
    PDict [("output", PStr "");
           ("actions", PList [action_of (sql_tool "SELECT * FROM t")])];
    PDict [("output", PStr "Done")] ].

(** Two records with differing matching actions. *)
Definition two_queries : list pyval :=
  [ chunk_of "a" [sql_tool "SELECT 1"]; chunk_of "b" [sql_tool "SELECT 2"] ].

(** A first match with nothing between the quotes, then a second match. *)
Definition empty_then_query : list pyval :=
  [ chunk_of "" [sql_tool ""]; chunk_of "" [sql_tool "SELECT 1"] ].

(** One match alone, with nothing between the quotes. *)
Definition empty_query : list pyval := [ chunk_of "" [sql_tool ""] ].

(** A record whose action has a null tool. *)
Definition null_tool : list pyval :=
  [ PDict [("actions", PList [PDict [("tool", PNone)]])] ].

(** A stream whose only action has the quoted argument but not the marker. *)
Definition other_tool : list pyval :=
  [ chunk_of "x" ["python_repl tool_input=" ++ quoted "SELECT 1"]; PStr "y" ].

Definition escaped_payload : string :=
  "SELECT " ++ escaped_quote ++ "a" ++ escaped_quote.

(** A query that is the unescaped group of a pattern match in some string. *)
Definition from_pattern (q : string) : Prop :=
  exists t p, Str.re_search t = Some p /\ q = Str.unescape p.

(** ** Further vocabulary for the stream parser *)

(** A chunk that neither adds to the response nor offers an action: anything
    that is neither a record nor text, the empty text, and a record whose
    output and actions are absent or false. *)
Definition inert (chunk : pyval) : bool :=
  match chunk with
  | PStr s => Str.is_empty s
  | PDict d =>
      negb (Py.truthy (chunk_output (PDict d)))
      && match Py.dict_get "actions" d with
         | Some actions => negb (Py.truthy actions)
         | None => true
         end
  | _ => true
  end.

Definition has_query (y : yielded) : bool := is_some (y_sql_query y).

(** Some action of the stream matches, whatever its payload. *)
Definition has_match (chunks : list pyval) : bool :=
  is_some (first_some payload (stream_actions chunks)).

Definition is_text (v : pyval) : bool :=
  match v with
  | PStr _ => true
  | _ => false
  end.

(** A logger that keeps every call made to it, in order. *)
Definition trace : Type := list (level * log_msg).

Definition record_log : level -> log_msg -> trace -> trace :=
  fun l m tr => (tr ++ [(l, m)])%list.

Definition is_chunk_entry (e : level * log_msg) : bool :=
  match e with
  | (DEBUG, LogChunk _) => true
  | _ => false
  end.

Definition is_extracted_entry (e : level * log_msg) : bool :=
  match e with
  | (_, LogExtracted _) => true
  | _ => false
  end.

Definition is_closing_entry (e : level * log_msg) : bool :=
  match e with
  | (_, LogFull _) | (_, LogFinal _) => true
  | _ => false
  end.

(** ** The module logger

    [logging.getLogger(__name__)] hands every parser the same logger.  What
    matters of it here: its level, the levels of the stream handlers attached
    to it (oldest first), and the lines that have been written on account of
    the calls made on it. *)
Record logger : Type := mk_logger {
  lg_level : Z;
  lg_handlers : list Z;
  lg_written : list (level * log_msg)
}.

Definition levelno (l : level) : Z :=
  match l with
  | DEBUG => 10
  | INFO => 20
  end.

(** [MindsDBSQLStreamParser.__init__]: set the level of the shared logger and
    attach one more stream handler of that level. *)
Definition parser_init (log_level : Z) (lg : logger) : logger :=
  {| lg_level := log_level;
     lg_handlers := (lg_handlers lg ++ [log_level])%list;
     lg_written := lg_written lg |}.

(** [getEffectiveLevel]: the logger's own level, or the one inherited from
    its ancestors when its own is NOTSET. *)
Definition effective_level (inherited : Z) (lg : logger) : Z :=
  if Z.eqb (lg_level lg) 0 then inherited else lg_level lg.

(** The handlers a record of the module logger is offered to, as
    [Logger.callHandlers] walks them: the logger's own, then those of the
    ancestor loggers the record propagates to.  [ancestors] holds the levels
    of the latter, nearest logger first; it is empty when no ancestor has a
    handler or when propagation is switched off on the way. *)
Definition handlers_reached (ancestors : list Z) (lg : logger) : list Z :=
  (lg_handlers lg ++ ancestors)%list.

(** The lines one call writes, with [logging.disable] not in force and no
    filter installed: none when the logger is not enabled for the level, else
    one per handler reached whose level lets the record through.  The levels
    of the ancestor loggers themselves play no part, and the handler of last
    resort, of level WARNING, writes nothing for the two levels used here. *)
Definition lines_of_call (inherited : Z) (ancestors : list Z) (lg : logger)
           (l : level) (m : log_msg)
  : list (level * log_msg) :=
  if Z.leb (effective_level inherited lg) (levelno l)
  then map (fun _ => (l, m))
           (filter (fun h => Z.leb h (levelno l))
                   (handlers_reached ancestors lg))
  else [].

(** [self.logger.debug(...)] and [self.logger.info(...)]. *)
Definition logger_call (inherited : Z) (ancestors : list Z)
           (l : level) (m : log_msg) (lg : logger)
  : logger :=
  {| lg_level := lg_level lg;
     lg_handlers := lg_handlers lg;
     lg_written :=
       (lg_written lg ++ lines_of_call inherited ancestors lg l m)%list |}.

(** Parsers constructed one after the other with the given levels. *)
Definition construct_all (levels : list Z) (lg : logger) : logger :=
  fold_left (fun lg l => parser_init l lg) levels lg.

Definition is_info_entry (e : level * log_msg) : bool :=
  match e with
  | (INFO, _) => true
  | (DEBUG, _) => false
  end.

(** The calls a run of [process_stream] makes to its logger. *)
Definition calls_of (chunks : list pyval) : trace :=
  snd (process_stream record_log chunks []).

Definition replay {Sink : Type} (log : level -> log_msg -> Sink -> Sink)
           (calls : trace) (sink : Sink) : Sink :=
  fold_left (fun s e => log (fst e) (snd e) s) calls sink.

Definition two_lines : string := "SELECT 1" ++ String Str.newline "FROM t".

(** ** The collections of skills.py and agents.py

    The objects are records of Python values; the REST client [self.api] is
    not part of these files and is taken as a parameter: a server that
    answers each request with decoded JSON or raises, and moves on to a new
    state. *)

Inductive error : Type :=
| Builtin : exn -> error
| HTTPError : Z -> error
| AttributeError : error
| TransportError : error.

Inductive outcome (A : Type) : Type :=
| Fail : error -> outcome A
| Done : A -> outcome A.
Arguments Fail {A} _.
Arguments Done {A} _.

Record Skill : Type := mk_Skill {
  skill_name : pyval;
  skill_type : pyval;
  skill_params : pyval
}.

(** [Skill.__init__]: [params or {}]. *)
Definition Skill_init (name type params : pyval) : Skill :=
  mk_Skill name type (if Py.truthy params then params else PDict []).

(** [SQLSkill.__init__]. *)
Definition SQLSkill_init (name tables database : pyval) : Skill :=
  Skill_init name (PStr "sql")
             (PDict [("database", database); ("tables", tables)]).

(** [Skill.from_json]. *)
Definition Skill_from_json (json : pyval) : result Skill :=
  name <- Py.getitem json "name" ;;
  type <- Py.getitem json "type" ;;
  params <- Py.getitem json "params" ;;
  Ok (Skill_init name type params).

(** An entry of a list of skills handed to [Agents]: a skill's name or a
    skill object, told apart by [isinstance(skill, str)]. *)
Inductive skill_ref : Type :=
| ByName : string -> skill_ref
| ByObject : Skill -> skill_ref.

Definition ref_name (r : skill_ref) : pyval :=
  match r with
  | ByName s => PStr s
  | ByObject sk => skill_name sk
  end.

Record Agent : Type := mk_Agent {
  agent_name : pyval;
  agent_model_name : pyval;
  agent_skills : list skill_ref;
  agent_params : pyval;
  agent_created_at : pyval;
  agent_updated_at : pyval
}.

(** The comprehension [[Skill.from_json(skill) for skill in ...]]. *)
Fixpoint skills_from_json (items : list pyval) : result (list skill_ref) :=
  match items with
  | [] => Ok []
  | item :: rest =>
      sk <- Skill_from_json item ;;
      sks <- skills_from_json rest ;;
      Ok (ByObject sk :: sks)
  end.

(** [Agent.from_json]; the arguments are evaluated from left to right. *)
Definition Agent_from_json (json : pyval) : result Agent :=
  name <- Py.getitem json "name" ;;
  model_name <- Py.getitem json "model_name" ;;
  skills_json <- Py.getitem json "skills" ;;
  items <- Py.iter skills_json ;;
  skills <- skills_from_json items ;;
  params <- Py.getitem json "params" ;;
  created_at <- Py.getitem json "created_at" ;;
  updated_at <- Py.getitem json "updated_at" ;;
  Ok (mk_Agent name model_name skills params created_at updated_at).

(** The requests the two collections send through [self.api]. *)
Inductive api_call : Type :=
| ApiSkill (project : string) (name : pyval)
| ApiCreateSkill (project : string) (name type params : pyval)
| ApiAgent (project : string) (name : pyval)
| ApiCreateAgent (project : string) (name model_name : pyval)
                 (skill_names : list pyval) (params : pyval)
| ApiUpdateAgent (project : string) (name new_name model_name : pyval)
                 (skills_to_add skills_to_remove : list pyval) (params : pyval).

(** Python sets of hashable JSON values, in insertion order: lists and dicts
    cannot be hashed, and [True] and [1] are one and the same key. *)
Definition hashable (v : pyval) : bool :=
  match v with
  | PList _ | PDict _ => false
  | _ => true
  end.

Definition key_eqb (a b : pyval) : bool :=
  match a, b with
  | PNone, PNone => true
  | PStr s, PStr t => String.eqb s t
  | PBool x, PBool y => Bool.eqb x y
  | PInt x, PInt y => Z.eqb x y
  | PBool x, PInt y | PInt y, PBool x => Z.eqb (if x then 1 else 0) y
  | _, _ => false
  end.

Definition set_mem (v : pyval) (s : list pyval) : bool := existsb (key_eqb v) s.

Definition set_add (v : pyval) (s : list pyval) : result (list pyval) :=
  if hashable v
  then Ok (if set_mem v s then s else (s ++ [v])%list)
  else Raise TypeError.

Fixpoint set_of_list (l : list pyval) (s : list pyval) : result (list pyval) :=
  match l with
  | [] => Ok s
  | v :: l' => s' <- set_add v s ;; set_of_list l' s'
  end.

Definition set_difference (a b : list pyval) : list pyval :=
  filter (fun v => negb (set_mem v b)) a.

Section Remote.

Variable St : Type.
(** The REST client: the answer to a request and the server's next state. *)
Variable server : api_call -> St -> outcome pyval * St.
(** [list(s)] of a set: the order in which Python lists a set is its own
    business. *)
Variable list_of_set : list pyval -> list pyval.

(** The server's state and the requests sent so far, each with its answer. *)
Definition world : Type := St * list (api_call * outcome pyval).

Definition Api (A : Type) : Type := world -> outcome A * world.

Definition api_ret {A : Type} (a : A) : Api A := fun w => (Done a, w).

Definition api_bind {A B : Type} (c : Api A) (k : A -> Api B) : Api B :=
  fun w => match c w with
           | (Fail e, w') => (Fail e, w')
           | (Done a, w') => k a w'
           end.

Definition api_raise {A : Type} (e : error) : Api A := fun w => (Fail e, w).

Definition lift {A : Type} (r : result A) : Api A :=
  match r with
  | Raise e => api_raise (Builtin e)
  | Ok a => api_ret a
  end.

Definition request (c : api_call) : Api pyval :=
  fun w => let '(r, st) := server c (fst w) in
           (r, (st, (snd w ++ [(c, r)])%list)).

Local Notation "x <~ c ;; k" := (api_bind c (fun x => k))
  (at level 61, c at next level, right associativity).

(** [Skills.get]. *)
Definition Skills_get (project : string) (name : pyval) : Api Skill :=
  data <~ request (ApiSkill project name) ;;
  lift (Skill_from_json data).

(** [Skills.create]. *)
Definition Skills_create (project : string) (name type params : pyval)
  : Api Skill :=
  _ <~ request (ApiCreateSkill project name type params) ;;
  if Py.is_str "sql" type then
    tables <~ lift (Py.getitem params "tables") ;;
    database <~ lift (Py.getitem params "database") ;;
    api_ret (SQLSkill_init name tables database)
  else api_ret (Skill_init name type params).

(** The loop of [Agents.create] over the skills. *)
Fixpoint create_skill_names (skills_project : string) (skills : list skill_ref)
  : Api (list pyval) :=
  match skills with
  | [] => api_ret []
  | ByName s :: rest =>
      _ <~ Skills_get skills_project (PStr s) ;;
      names <~ create_skill_names skills_project rest ;;
      api_ret (PStr s :: names)
  | ByObject sk :: rest =>
      _ <~ Skills_create skills_project (skill_name sk) (skill_type sk)
                         (skill_params sk) ;;
      names <~ create_skill_names skills_project rest ;;
      api_ret (skill_name sk :: names)
  end.

(** [Agents.create]; [skills_project] is the project of [self.skills]. *)
Definition Agents_create (project skills_project : string)
           (name model_name : pyval) (skills : option (list skill_ref))
           (params : pyval) : Api Agent :=
  let skills := match skills with Some l => l | None => [] end in
  skill_names <~ create_skill_names skills_project skills ;;
  data <~ request (ApiCreateAgent project name model_name skill_names params) ;;
  lift (Agent_from_json data).

(** The [try] of [Agents.update] around the lookup of a skill object: a 404
    leads to the creation of the skill, any other HTTP error is raised
    again, and other exceptions are not caught. *)
Definition ensure_skill (skills_project : string) (sk : Skill) : Api unit :=
  fun w =>
    match Skills_get skills_project (skill_name sk) w with
    | (Done _, w') => (Done tt, w')
    | (Fail (HTTPError status_code), w') =>
        if negb (Z.eqb status_code 404)
        then (Fail (HTTPError status_code), w')
        else (_ <~ Skills_create skills_project (skill_name sk) (skill_type sk)
                                 (skill_params sk) ;;
              api_ret tt) w'
    | (Fail e, w') => (Fail e, w')
    end.

(** The loop of [Agents.update] over the skills of the updated agent. *)
Fixpoint update_skill_set (skills_project : string) (skills : list skill_ref)
         (updated_skills : list pyval) : Api (list pyval) :=
  match skills with
  | [] => api_ret updated_skills
  | ByName s :: rest =>
      _ <~ Skills_get skills_project (PStr s) ;;
      updated_skills <~ lift (set_add (PStr s) updated_skills) ;;
      update_skill_set skills_project rest updated_skills
  | ByObject sk :: rest =>
      _ <~ ensure_skill skills_project sk ;;
      updated_skills <~ lift (set_add (skill_name sk) updated_skills) ;;
      update_skill_set skills_project rest updated_skills
  end.

(** [s.name] on a value the server sent: decoded JSON has no attribute
    [name]. *)
Definition getattr_name (s : pyval) : Api pyval := api_raise AttributeError.

(** The comprehension [[s.name for s in existing_agent['skills']]]. *)
Fixpoint attr_names (items : list pyval) : Api (list pyval) :=
  match items with
  | [] => api_ret []
  | s :: rest =>
      n <~ getattr_name s ;;
      ns <~ attr_names rest ;;
      api_ret (n :: ns)
  end.

(** [Agents.update] after its loop: the stored agent is fetched, the two
    differences are taken and the update is sent. *)
Definition send_update (project : string) (name : pyval)
           (updated_agent : Agent) (updated_skills : list pyval) : Api Agent :=
  existing_agent <~ request (ApiAgent project name) ;;
  skills_json <~ lift (Py.getitem existing_agent "skills") ;;
  items <~ lift (Py.iter skills_json) ;;
  names <~ attr_names items ;;
  existing_skills <~ lift (set_of_list names []) ;;
  let skills_to_add := set_difference updated_skills existing_skills in
  let skills_to_remove := set_difference existing_skills updated_skills in
  data <~ request (ApiUpdateAgent project name
                                  (agent_name updated_agent)
                                  (agent_model_name updated_agent)
                                  (list_of_set skills_to_add)
                                  (list_of_set skills_to_remove)
                                  (agent_params updated_agent)) ;;
  lift (Agent_from_json data).

(** [Agents.update]. *)
Definition Agents_update (project skills_project : string) (name : pyval)
           (updated_agent : Agent) : Api Agent :=
  updated_skills <~ update_skill_set skills_project
                                     (agent_skills updated_agent) [] ;;
  send_update project name updated_agent updated_skills.

End Remote.

Arguments api_ret {St A} a.
Arguments api_bind {St A B} c k.
Arguments api_raise {St A} e.
Arguments lift {St A} r.
Arguments request {St} server c.
Arguments Skills_get {St} server project name.
Arguments Skills_create {St} server project name type params.
Arguments create_skill_names {St} server skills_project skills.
Arguments Agents_create {St} server project skills_project name model_name
  skills params.
Arguments ensure_skill {St} server skills_project sk.
Arguments update_skill_set {St} server skills_project skills updated_skills.
Arguments getattr_name {St} s.
Arguments attr_names {St} items.
Arguments send_update {St} server list_of_set project name updated_agent
  updated_skills.
Arguments Agents_update {St} server list_of_set project skills_project name
  updated_agent.

(** The request a skill of the list costs in [Agents.create]. *)
Definition skill_request (skills_project : string) (r : skill_ref) : api_call :=
  match r with
  | ByName s => ApiSkill skills_project (PStr s)
  | ByObject sk =>
      ApiCreateSkill skills_project (skill_name sk) (skill_type sk)
                     (skill_params sk)
  end.

(** What the loop of [Agents.create] makes of the answer to the request of
    one entry.  An error of the request is raised as it is.  The answer to a
    lookup is decoded by [Skill.from_json], which may raise; the answer to a
    creation is dropped, and for a skill of type sql [Skills.create] then
    reads ['tables'] and ['database'] of the parameters, which may raise
    too. *)
Definition step_result (r : skill_ref) (resp : outcome pyval) : outcome unit :=
  match resp with
  | Fail e => Fail e
  | Done data =>
      match r with
      | ByName _ =>
          match Skill_from_json data with
          | Raise e => Fail (Builtin e)
          | Ok _ => Done tt
          end
      | ByObject sk =>
          if Py.is_str "sql" (skill_type sk)
          then match Py.getitem (skill_params sk) "tables" with
               | Raise e => Fail (Builtin e)
               | Ok _ =>
                   match Py.getitem (skill_params sk) "database" with
                   | Raise e => Fail (Builtin e)
                   | Ok _ => Done tt
                   end
               end
          else Done tt
      end
  end.

(** An entry of the log that is the request of the skill [r], answered so
    that the loop goes on. *)
Definition entry_ok (skills_project : string) (r : skill_ref)
           (e : api_call * outcome pyval) : Prop :=
  fst e = skill_request skills_project r /\ step_result r (snd e) = Done tt.

(** The entries of a log are what the server answered, one request after the
    other from the state [st], and [st'] is the state it was left in. *)
Fixpoint served {St : Type} (server : api_call -> St -> outcome pyval * St)
         (st : St) (new : list (api_call * outcome pyval)) (st' : St) : Prop :=
  match new with
  | [] => st' = st
  | e :: rest =>
      snd e = fst (server (fst e) st)
      /\ served server (snd (server (fst e) st)) rest st'
  end.

(** Every creation of a skill in a log of requests comes straight after a
    lookup of the same skill that was answered 404. *)
Fixpoint creates_follow_404 (prev : option (api_call * outcome pyval))
         (l : list (api_call * outcome pyval)) : Prop :=
  match l with
  | [] => True
  | e :: l' =>
      match fst e with
      | ApiCreateSkill p n _ _ =>
          prev = Some (ApiSkill p n, Fail (HTTPError 404))
      | _ => True
      end
      /\ creates_follow_404 (Some e) l'
  end.

Definition is_update_agent (e : api_call * outcome pyval) : bool :=
  match fst e with
  | ApiUpdateAgent _ _ _ _ _ _ _ => true
  | _ => false
  end.

(** A server for examples: it knows the skills named in its state and answers
    a lookup of any other with 404; every agent it is asked for has all these
    skills, and the agents it reports as created or updated have none. *)
Definition stored_skill (name : pyval) : pyval :=
  PDict [("name", name); ("type", PStr "sql"); ("params", PDict [])].

Definition stored_agent (name : pyval) (skills : list pyval) : pyval :=
  PDict [("name", name); ("model_name", PStr "m");
         ("skills", PList (map stored_skill skills));
         ("params", PDict []); ("created_at", PNone); ("updated_at", PNone)].

Definition demo_server (c : api_call) (st : list pyval)
  : outcome pyval * list pyval :=
  match c with
  | ApiSkill _ n =>
      if set_mem n st then (Done (stored_skill n), st)
      else (Fail (HTTPError 404), st)
  | ApiCreateSkill _ n _ _ => (Done PNone, (st ++ [n])%list)
  | ApiAgent _ n => (Done (stored_agent n st), st)
  | ApiCreateAgent _ n _ _ _ => (Done (stored_agent n []), st)
  | ApiUpdateAgent _ _ n _ _ _ _ => (Done (stored_agent n []), st)
  end.

(** The entries of a log of requests that a run has added, and what holds of
    them together with the run's result: creations follow a 404, and a
    request that failed either ended the run with its error or was a lookup
    answered 404 that the creation of the same skill follows. *)
Definition failures_end_run {A : Type} (r : outcome A)
           (new : list (api_call * outcome pyval)) : Prop :=
  forall pre c e post,
    new = (pre ++ (c, Fail e) :: post)%list ->
    (post = [] /\ r = Fail e)
    \/ (exists p n t ps resp post',
           c = ApiSkill p n /\ e = HTTPError 404
           /\ post = (ApiCreateSkill p n t ps, resp) :: post').

Definition orderly {A : Type} (r : outcome A)
           (new : list (api_call * outcome pyval)) : Prop :=
  (forall prev, creates_follow_404 prev new) /\ failures_end_run r new.

Definition orderly_run {St A : Type} (c : Api St A) : Prop :=
  forall w, exists new,
    snd (snd (c w)) = (snd w ++ new)%list /\ orderly (fst (c w)) new.

Definition is_skill_call (e : api_call * outcome pyval) : bool :=
  match fst e with
  | ApiSkill _ _ | ApiCreateSkill _ _ _ _ => true
  | _ => false
  end.

Definition skill_calls_only {St A : Type} (c : Api St A) : Prop :=
  forall w, exists new,
    snd (snd (c w)) = (snd w ++ new)%list
    /\ forallb is_skill_call new = true.

(** ** model.py: the options of [Model._retrain]

    [d[k] = v] on a dict: the value of an existing key is replaced where it
    stands, a new key goes to the end. *)
Fixpoint dict_set (k : string) (v : pyval) (d : list (string * pyval))
  : list (string * pyval) :=
  match d with
  | [] => [(k, v)]
  | (k', v') :: d' =>
      if String.eqb k k' then (k, v) :: d' else (k', v') :: dict_set k v d'
  end.

(** What [_retrain] does with [options] and [engine] before it builds the
    statement: the [using] it passes on ([options or None]) and the state in
    which it leaves the dict of the caller, which it writes into when there is
    one.  [None] stands for Python's None in both arguments. *)
Definition retrain_using (options : option (list (string * pyval)))
           (engine : option pyval)
  : option (list (string * pyval)) * option (list (string * pyval)) :=
  let d := match options with
           | Some d => d
           | None => []
           end in
  let d := match engine with
           | Some e => dict_set "engine" e d
           | None => d
           end in
  (match d with
   | [] => None
   | _ :: _ => Some d
   end,
   match options with
   | Some _ => Some d
   | None => None
   end).

(** ** What the parser tolerates

    The guards of the source: a chunk that is neither a record nor text falls
    through both [isinstance] tests; ['actions'] is looked at only when
    present and true; ['tool'] only when present; and [process_stream] adds an
    output only when it is true. *)
Definition falsy_or_text (v : pyval) : bool :=
  negb (Py.truthy v) || is_text v.

(** A value of ['actions'] the generator gets through: any false value, or a
    list of records whose ['tool'] is absent or text. *)
Definition tolerated_actions (v : pyval) : bool :=
  match v with
  | PList l => forallb well_shaped_action l
  | _ => negb (Py.truthy v)
  end.

Definition tolerated_by_generator (chunk : pyval) : bool :=
  match chunk with
  | PDict d => match Py.dict_get "actions" d with
               | Some actions => tolerated_actions actions
               | None => true
               end
  | _ => true
  end.

(** What [process_stream] gets through as well: the output is absent, false
    or text. *)
Definition tolerated (chunk : pyval) : bool :=
  tolerated_by_generator chunk && falsy_or_text (chunk_output chunk).

(** None, a number, a record with null output and null actions, a text. *)
Definition odd_chunks : list pyval :=
  [ PNone; PInt 7; PDict [("output", PNone); ("actions", PNone)]; PStr "a" ].

(** * Properties *)

(** ** The string functions on examples *)

Example contains_marker :
  Str.contains "sql_db_query" "the sql_db_query tool" = true.
Proof. reflexivity. Qed.

Example re_search_scenario :
  Str.re_search ("sql_db_query tool_input=" ++ String Str.dquote "SELECT * FROM t"
                   ++ String Str.dquote "")
  = Some "SELECT * FROM t".
Proof. reflexivity. Qed.

Example re_search_newline :
  Str.re_search ("tool_input=" ++ String Str.dquote "a" ++ String Str.newline "b"
                   ++ String Str.dquote " tool_input="
                   ++ String Str.dquote "c" ++ String Str.dquote "")
  = Some "c".
Proof. reflexivity. Qed.

Example unescape_example :
  Str.unescape ("name = " ++ String Str.backslash "'bob" ++ String Str.backslash "'")
  = "name = 'bob'".
Proof. reflexivity. Qed.

(** ** Strings: basic facts *)

Lemma append_nil_r (s : string) : s ++ "" = s.
Proof. induction s as [|c s IH]; simpl; [reflexivity | now rewrite IH]. Qed.

Lemma append_assoc (a b c : string) : (a ++ b) ++ c = a ++ b ++ c.
Proof. induction a as [|x a IH]; simpl; [reflexivity | now rewrite IH]. Qed.

Lemma unescape_is_empty (s : string) :
  Str.is_empty (Str.unescape s) = Str.is_empty s.
Proof.
  destruct s as [|c [|c' s]]; simpl; try reflexivity.
  now destruct (Ascii.eqb c Str.backslash && Ascii.eqb c' Str.squote)%bool.
Qed.

(** A two-step induction that follows [Str.unescape]. *)
Lemma string_ind2 (P : string -> Prop) :
  P "" ->
  (forall c, P (String c "")) ->
  (forall c c' s, P s -> P (String c' s) -> P (String c (String c' s))) ->
  forall s, P s.
Proof.
  intros H0 H1 H2 s.
  assert (H : P s /\ forall c, P (String c s)).
  { induction s as [|c' s [IHa IHb]]; split; auto. }
  exact (proj1 H).
Qed.

Lemma unescape_cons2 (c c' : ascii) (s : string) :
  Str.unescape (String c (String c' s))
  = if (Ascii.eqb c Str.backslash && Ascii.eqb c' Str.squote)%bool
    then String Str.squote (Str.unescape s)
    else String c (Str.unescape (String c' s)).
Proof. reflexivity. Qed.

Lemma unescape_split (p1 p2 : string) :
  Str.unescape (p1 ++ escaped_quote ++ p2)
  = Str.unescape p1 ++ String Str.squote (Str.unescape p2).
Proof.
  induction p1 as [| c | c c' s IHs IHcs] using string_ind2.
  - reflexivity.
  - cbn [String.append Str.unescape escaped_quote].
    replace (Ascii.eqb Str.backslash Str.squote) with false by reflexivity.
    rewrite andb_false_r. reflexivity.
  - cbn [String.append] in *.
    rewrite !unescape_cons2.
    destruct (Ascii.eqb c Str.backslash && Ascii.eqb c' Str.squote)%bool.
    + cbn [String.append]. now rewrite IHs.
    + cbn [String.append]. now rewrite IHcs.
Qed.

Lemma unescape_id (s : string) :
  (forall p1 p2, s <> p1 ++ escaped_quote ++ p2) -> Str.unescape s = s.
Proof.
  induction s as [| c | c c' s IHs IHcs] using string_ind2; intros H.
  - reflexivity.
  - reflexivity.
  - rewrite unescape_cons2.
    destruct (Ascii.eqb c Str.backslash && Ascii.eqb c' Str.squote)%bool eqn:E.
    + apply andb_true_iff in E. destruct E as [E1 E2].
      apply Ascii.eqb_eq in E1, E2. subst.
      exfalso. apply (H "" s). reflexivity.
    + f_equal. apply IHcs. intros p1 p2 E'.
      apply (H (String c p1) p2). cbn [String.append]. now rewrite <- E'.
Qed.

Lemma unescape_mem_dquote (s : string) :
  Str.mem Str.dquote (Str.unescape s) = Str.mem Str.dquote s.
Proof.
  induction s as [| c | c c' s IHs IHcs] using string_ind2.
  - reflexivity.
  - reflexivity.
  - rewrite unescape_cons2.
    destruct (Ascii.eqb c Str.backslash && Ascii.eqb c' Str.squote)%bool eqn:E.
    + apply andb_true_iff in E. destruct E as [E1 E2].
      apply Ascii.eqb_eq in E1, E2. subst.
      cbn [Str.mem]. rewrite IHs. reflexivity.
    + change (Str.mem Str.dquote (String c (Str.unescape (String c' s))))
        with (Ascii.eqb Str.dquote c
              || Str.mem Str.dquote (Str.unescape (String c' s)))%bool.
      now rewrite IHcs.
Qed.

(** ** The pattern search *)

Lemma strip_prefix_spec (lit s r : string) :
  Str.strip_prefix lit s = Some r -> s = lit ++ r.
Proof.
  revert s. induction lit as [|a lit IH]; intros s H; simpl in *.
  - now injection H.
  - destruct s as [|b s]; [discriminate|].
    destruct (Ascii.eqb a b) eqn:E; [|discriminate].
    apply Ascii.eqb_eq in E. subst b. f_equal. now apply IH.
Qed.

Lemma lazy_group_spec (s p : string) :
  Str.lazy_group s = Some p ->
  exists post, s = p ++ String Str.dquote post
               /\ Str.mem Str.dquote p = false
               /\ Str.mem Str.newline p = false.
Proof.
  revert p. induction s as [|c s IH]; intros p H; simpl in H; [discriminate|].
  destruct (Ascii.eqb c Str.dquote) eqn:Eq.
  - injection H as <-. apply Ascii.eqb_eq in Eq. subst c.
    exists s. repeat split.
  - destruct (Ascii.eqb c Str.newline) eqn:En; [discriminate|].
    destruct (Str.lazy_group s) as [p'|] eqn:E; [|discriminate].
    injection H as <-.
    destruct (IH p' eq_refl) as (post & -> & Hq & Hn).
    exists post. cbn [String.append Str.mem].
    rewrite Hq, Hn, (Ascii.eqb_sym Str.dquote c), (Ascii.eqb_sym Str.newline c).
    rewrite Eq, En. repeat split.
Qed.

Lemma match_here_spec (s p : string) :
  Str.match_here s = Some p ->
  exists post, s = Str.tool_input_lit ++ p ++ String Str.dquote post
               /\ Str.mem Str.dquote p = false
               /\ Str.mem Str.newline p = false.
Proof.
  unfold Str.match_here. intros H.
  destruct (Str.strip_prefix Str.tool_input_lit s) as [r|] eqn:E; [|discriminate].
  apply strip_prefix_spec in E.
  destruct (lazy_group_spec _ _ H) as (post & -> & Hq & Hn).
  exists post. auto.
Qed.

(** The search returns the group of the leftmost position where the pattern
    matches. *)
Lemma re_search_leftmost (s p : string) :
  Str.re_search s = Some p ->
  exists pre rest,
    s = pre ++ rest
    /\ Str.match_here rest = Some p
    /\ (forall a b, pre = a ++ b -> b <> "" -> Str.match_here (b ++ rest) = None).
Proof.
  induction s as [|c s IH]; intros H.
  - discriminate H.
  - cbn [Str.re_search] in H.
    destruct (Str.match_here (String c s)) as [p'|] eqn:E.
    + exists "", (String c s). repeat split; [congruence|].
      intros [|] [|] Hab Hb; try discriminate. now elim Hb.
    + destruct (IH H) as (pre & rest & -> & Hm & Hleft).
      exists (String c pre), rest. repeat split; [assumption|].
      intros [|x a] b Hab Hb.
      * cbn [String.append] in Hab. subst b. exact E.
      * cbn [String.append] in Hab. injection Hab as _ Hab.
        now apply Hleft with (a := a).
Qed.

Lemma re_search_spec (s p : string) :
  Str.re_search s = Some p ->
  exists pre post,
    s = pre ++ Str.tool_input_lit ++ p ++ String Str.dquote post
    /\ Str.mem Str.dquote p = false
    /\ Str.mem Str.newline p = false.
Proof.
  intros H. destruct (re_search_leftmost _ _ H) as (pre & rest & -> & Hm & _).
  destruct (match_here_spec _ _ Hm) as (post & -> & Hq & Hn).
  exists pre, post. auto.
Qed.

(** ** The logger does not reach the results *)

Section SinkIndependence.

Context {Sink : Type} (log : level -> log_msg -> Sink -> Sink).

Lemma gen_body_fst (found : bool) (chunk : pyval) (sink : Sink) :
  fst (gen_body log found chunk sink) = fst (gen_body no_log found chunk tt).
Proof. reflexivity. Qed.

Lemma consume_fst (y : yielded) (full : string) (sql : option string)
      (sink : Sink) :
  fst (consume log y full sql sink) = fst (consume no_log y full sql tt).
Proof.
  unfold consume.
  destruct (Py.truthy (y_output y)); cbn [fst snd].
  - destruct (Py.str_iadd full (y_output y)); [reflexivity|].
    destruct (y_sql_query y) as [q|], sql; try reflexivity.
    destruct (negb (Str.is_empty q)); reflexivity.
  - destruct (y_sql_query y) as [q|], sql; try reflexivity.
    destruct (negb (Str.is_empty q)); reflexivity.
Qed.

Lemma process_loop_fst (chunks : list pyval) :
  forall found full sql (sink : Sink),
    fst (process_loop log chunks found full sql sink)
    = fst (process_loop no_log chunks found full sql tt).
Proof.
  induction chunks as [|c cs IH]; intros found full sql sink; [reflexivity|].
  cbn [process_loop].
  pose proof (gen_body_fst found c sink) as Hg.
  destruct (gen_body log found c sink) as [r1 s1].
  destruct (gen_body no_log found c tt) as [r2 []].
  cbn [fst] in Hg. subst r2.
  destruct r1 as [e | [y found']]; [reflexivity|].
  pose proof (consume_fst y full sql s1) as Hc.
  destruct (consume log y full sql s1) as [r1 s1'].
  destruct (consume no_log y full sql tt) as [r2 []].
  cbn [fst] in Hc. subst r2.
  destruct r1 as [e | [full' sql']]; [reflexivity|].
  apply IH.
Qed.

Lemma process_stream_fst (chunks : list pyval) (sink : Sink) :
  fst (process_stream log chunks sink)
  = fst (process_loop no_log chunks false "" None tt).
Proof.
  unfold process_stream.
  pose proof (process_loop_fst chunks false "" None (log INFO LogStart sink)) as H.
  destruct (process_loop log chunks false "" None (log INFO LogStart sink))
    as [r s].
  cbn [fst] in H. rewrite <- H.
  destruct r as [e | [full sql]]; reflexivity.
Qed.

Lemma stream_loop_fst (chunks : list pyval) :
  forall found (sink : Sink),
    fst (stream_loop log chunks found sink)
    = fst (stream_loop no_log chunks found tt).
Proof.
  induction chunks as [|c cs IH]; intros found sink; [reflexivity|].
  cbn [stream_loop].
  pose proof (gen_body_fst found c sink) as Hg.
  destruct (gen_body log found c sink) as [r1 s1].
  destruct (gen_body no_log found c tt) as [r2 []].
  cbn [fst] in Hg. subst r2.
  destruct r1 as [e | [y found']]; [reflexivity|].
  specialize (IH found' s1).
  destruct (stream_loop log cs found' s1) as [[ys1 e1] s1'].
  destruct (stream_loop no_log cs found' tt) as [[ys2 e2] []].
  cbn [fst] in IH. injection IH as -> ->. reflexivity.
Qed.

End SinkIndependence.

(** ** The generator and the consumer on well-shaped chunks *)

Lemma first_some_app {A B : Type} (f : A -> option B) (l1 l2 : list A) :
  first_some f (l1 ++ l2)
  = match first_some f l1 with
    | Some b => Some b
    | None => first_some f l2
    end.
Proof.
  induction l1 as [|x l1 IH]; simpl; [reflexivity|].
  destruct (f x); [reflexivity | exact IH].
Qed.

Lemma first_some_none {A B : Type} (f : A -> option B) (l : list A) :
  (forall x, In x l -> f x = None) -> first_some f l = None.
Proof.
  induction l as [|x l IH]; intros H; simpl; [reflexivity|].
  rewrite (H x (or_introl eq_refl)). apply IH. intros y Hy. apply H. now right.
Qed.

Lemma first_some_split {A B : Type} (f : A -> option B) (pre post : list A)
      (a : A) (b : B) :
  (forall x, In x pre -> f x = None) -> f a = Some b ->
  first_some f (pre ++ a :: post) = Some b.
Proof.
  intros Hpre Ha. rewrite first_some_app, (first_some_none f pre Hpre).
  simpl. now rewrite Ha.
Qed.

Lemma scan_actions_well_shaped (found : bool) (actions : list pyval) :
  forallb well_shaped_action actions = true ->
  scan_actions found actions
  = Ok (if found then None
        else option_map Str.unescape (first_some payload actions)).
Proof.
  induction actions as [|a l IH]; intros H.
  - simpl. now destruct found.
  - cbn [forallb] in H. apply andb_true_iff in H. destruct H as [Ha Hl].
    specialize (IH Hl).
    cbn [scan_actions first_some].
    destruct a as [| | | | |d]; try discriminate.
    unfold payload, action_tool.
    cbn [well_shaped_action] in Ha.
    cbn [Py.contains Py.getitem bind].
    destruct (Py.dict_get "tool" d) as [v|]; cbn [bind].
    + destruct v as [| | |t| |]; try discriminate.
      cbn [Py.contains Py.re_search bind].
      destruct (Str.contains marker t); cbn [bind].
      * destruct (Str.re_search t) as [p|].
        -- destruct found; cbn [negb]; [exact IH | reflexivity].
        -- exact IH.
      * exact IH.
    + exact IH.
Qed.

Lemma gen_body_well_shaped (found : bool) (chunk : pyval) :
  well_shaped chunk = true ->
  fst (gen_body no_log found chunk tt)
  = Ok (mk_yielded (PStr (text_of (chunk_output chunk)))
                   (if found then None
                    else option_map Str.unescape
                           (first_some payload (chunk_actions chunk))),
        (found || is_some (first_some payload (chunk_actions chunk)))%bool).
Proof.
  intros H. unfold gen_body. cbn [fst].
  destruct chunk as [| | |s| |d]; try discriminate.
  - cbn. destruct found; now rewrite ?orb_false_r.
  - cbn [well_shaped] in H. apply andb_true_iff in H. destruct H as [Ho Ha].
    cbn [chunk_output chunk_actions].
    assert (Hout : match Py.dict_get "output" d with
                   | Some v => v
                   | None => PStr ""
                   end
                   = PStr (text_of match Py.dict_get "output" d with
                                   | Some v => v
                                   | None => PStr ""
                                   end)).
    { destruct (Py.dict_get "output" d) as [[]|]; try discriminate; reflexivity. }
    rewrite <- Hout. clear Hout Ho.
    destruct (Py.dict_get "actions" d) as [acts|].
    + destruct acts as [| | | |l|]; try discriminate.
      destruct l as [|a l].
      * cbn. destruct found; now rewrite ?orb_false_r.
      * cbn [Py.truthy Py.iter bind].
        rewrite (scan_actions_well_shaped found (a :: l) Ha). cbn [bind].
        destruct found; cbn [orb is_some]; [reflexivity|].
        destruct (first_some payload (a :: l)); reflexivity.
    + cbn. destruct found; now rewrite ?orb_false_r.
Qed.

Lemma consume_text (s : string) (q : option string) (full : string)
      (sql : option string) :
  fst (consume no_log (mk_yielded (PStr s) q) full sql tt)
  = Ok (full ++ s, match sql with
                   | Some x => Some x
                   | None => kept q
                   end).
Proof.
  unfold consume. cbn [y_output y_sql_query Py.truthy Py.str_iadd].
  assert (Hs : forall (X : Type) (k : result string * unit -> X),
             k (if negb (Str.is_empty s)
                then (Ok (full ++ s), no_log INFO (LogOutput (PStr s)) tt)
                else (Ok full, tt))
             = k (Ok (full ++ s), tt)).
  { intros X k. destruct s; cbn; [now rewrite append_nil_r | reflexivity]. }
  rewrite (Hs _ (fun rs => fst (let '(r, sink) := rs in _))).
  cbn beta iota.
  destruct q as [q|], sql as [x|]; try reflexivity.
  unfold kept. destruct (Str.is_empty q); reflexivity.
Qed.

Lemma process_loop_well_shaped (chunks : list pyval) :
  forallb well_shaped chunks = true ->
  forall found full sql,
    fst (process_loop no_log chunks found full sql tt)
    = Ok (full ++ concat_outputs chunks,
          match sql with
          | Some x => Some x
          | None =>
              if found then None
              else kept (option_map Str.unescape
                           (first_some payload (stream_actions chunks)))
          end).
Proof.
  induction chunks as [|c cs IH]; intros H found full sql.
  - cbn. rewrite append_nil_r. destruct sql, found; reflexivity.
  - cbn [forallb] in H. apply andb_true_iff in H. destruct H as [Hc Hcs].
    specialize (IH Hcs).
    cbn [process_loop].
    pose proof (gen_body_well_shaped found c Hc) as Hg.
    destruct (gen_body no_log found c tt) as [r []]. cbn [fst] in Hg. subst r.
    set (q := if found then None
              else option_map Str.unescape (first_some payload (chunk_actions c))).
    pose proof (consume_text (text_of (chunk_output c)) q full sql) as Hk.
    destruct (consume no_log _ full sql tt) as [r []]. cbn [fst] in Hk. subst r.
    rewrite IH.
    unfold concat_outputs, stream_actions. cbn [map join fold_right flat_map].
    rewrite append_assoc, first_some_app.
    f_equal. f_equal.
    destruct sql as [x|]; [reflexivity|].
    subst q. destruct found; cbn [orb]; [reflexivity|].
    destruct (first_some payload (chunk_actions c)) as [p|]; cbn [is_some];
      [|reflexivity].
    cbn [option_map kept]. destruct (Str.is_empty (Str.unescape p)); reflexivity.
Qed.

(** The shared characterisation of [process_stream] on well-shaped streams. *)
Lemma process_stream_well_shaped {Sink : Type}
      (log : level -> log_msg -> Sink -> Sink) (chunks : list pyval)
      (sink : Sink) :
  forallb well_shaped chunks = true ->
  fst (process_stream log chunks sink)
  = Ok (concat_outputs chunks,
        kept (option_map Str.unescape
                (first_some payload (stream_actions chunks)))).
Proof.
  intros H. rewrite process_stream_fst.
  now rewrite (process_loop_well_shaped chunks H).
Qed.

(** ** The accumulated response on any stream *)

Lemma gen_body_output (found : bool) (chunk : pyval) (y : yielded) (found' : bool) :
  fst (gen_body no_log found chunk tt) = Ok (y, found') ->
  y_output y = chunk_output chunk.
Proof.
  unfold gen_body. cbn [fst].
  destruct chunk as [| | |s| |d]; try (intros [= <- _]; reflexivity).
  cbn [chunk_output].
  destruct (Py.dict_get "actions" d) as [acts|]; [|intros [= <- _]; reflexivity].
  destruct (Py.truthy acts); [|intros [= <- _]; reflexivity].
  destruct (Py.iter acts) as [e|items]; cbn [bind]; [discriminate|].
  destruct (scan_actions found items) as [e|q]; cbn [bind]; [discriminate|].
  intros [= <- _]; reflexivity.
Qed.

Lemma consume_full (y : yielded) (full : string) (sql : option string)
      (full' : string) (sql' : option string) :
  fst (consume no_log y full sql tt) = Ok (full', sql') ->
  full' = full ++ text_of (y_output y).
Proof.
  unfold consume.
  destruct (Py.truthy (y_output y)) eqn:T; cbn [fst snd].
  - destruct (y_output y) as [| | |s| |]; cbn [Py.str_iadd]; try discriminate.
    cbn [text_of].
    destruct (y_sql_query y) as [q|], sql; try (now intros [= <- _]).
    destruct (negb (Str.is_empty q)); now intros [= <- _].
  - assert (E : text_of (y_output y) = "").
    { destruct (y_output y) as [| | |s| |]; try reflexivity.
      destruct s; [reflexivity | discriminate]. }
    rewrite E, append_nil_r.
    destruct (y_sql_query y) as [q|], sql; try (now intros [= <- _]).
    destruct (negb (Str.is_empty q)); now intros [= <- _].
Qed.

Lemma process_loop_full (chunks : list pyval) :
  forall found full sql fr q,
    fst (process_loop no_log chunks found full sql tt) = Ok (fr, q) ->
    fr = full ++ concat_outputs chunks.
Proof.
  induction chunks as [|c cs IH]; intros found full sql fr q H.
  - cbn in H. injection H as <- _. cbn. now rewrite append_nil_r.
  - cbn [process_loop] in H.
    pose proof (gen_body_output found c) as Hg.
    destruct (gen_body no_log found c tt) as [[e|[y found']] []];
      [discriminate|].
    specialize (Hg y found' eq_refl).
    pose proof (consume_full y full sql) as Hk.
    destruct (consume no_log y full sql tt) as [[e|[full' sql']] []];
      [discriminate|].
    specialize (Hk full' sql' eq_refl).
    apply IH in H. subst fr full'.
    unfold concat_outputs. cbn [map join fold_right].
    now rewrite append_assoc, Hg.
Qed.

(** ** Where a returned query comes from, on any stream *)

Lemma scan_actions_some (found : bool) (actions : list pyval) (q : string) :
  scan_actions found actions = Ok (Some q) -> from_pattern q.
Proof.
  induction actions as [|a l IH]; [discriminate|].
  cbn [scan_actions]. unfold bind.
  destruct (Py.contains "tool" a) as [e|[|]]; [discriminate| |exact IH].
  destruct (Py.getitem a "tool") as [e|tool]; [discriminate|].
  destruct (Py.contains marker tool) as [e|[|]]; [discriminate| |exact IH].
  destruct tool as [| | |t| |]; cbn [Py.re_search]; try discriminate.
  destruct (Str.re_search t) as [p|] eqn:E; [|exact IH].
  destruct (negb found); [|exact IH].
  intros [= <-]. now exists t, p.
Qed.

Lemma gen_body_some (found : bool) (chunk : pyval) (y : yielded)
      (found' : bool) (q : string) :
  fst (gen_body no_log found chunk tt) = Ok (y, found') ->
  y_sql_query y = Some q -> from_pattern q.
Proof.
  unfold gen_body. cbn [fst].
  destruct chunk as [| | |s| |d]; try (intros [= <- _]; discriminate).
  destruct (Py.dict_get "actions" d) as [acts|];
    [|intros [= <- _]; discriminate].
  destruct (Py.truthy acts); [|intros [= <- _]; discriminate].
  destruct (Py.iter acts) as [e|items]; cbn [bind]; [discriminate|].
  destruct (scan_actions found items) as [e|q'] eqn:E; cbn [bind];
    [discriminate|].
  intros [= <- _]. cbn [y_sql_query]. intros ->.
  now apply scan_actions_some in E.
Qed.

Lemma consume_some (y : yielded) (full : string) (sql : option string)
      (full' : string) (q : string) :
  fst (consume no_log y full sql tt) = Ok (full', Some q) ->
  sql = Some q \/ y_sql_query y = Some q.
Proof.
  unfold consume.
  destruct (Py.truthy (y_output y)); cbn [fst snd].
  - destruct (Py.str_iadd full (y_output y)); [discriminate|].
    destruct (y_sql_query y) as [q'|], sql; try (intros [= _ <-]; now left);
      try discriminate.
    destruct (negb (Str.is_empty q')); [|discriminate].
    intros [= _ <-]. now right.
  - destruct (y_sql_query y) as [q'|], sql; try (intros [= _ <-]; now left);
      try discriminate.
    destruct (negb (Str.is_empty q')); [|discriminate].
    intros [= _ <-]. now right.
Qed.

Lemma process_loop_some (chunks : list pyval) :
  forall found full sql fr q,
    fst (process_loop no_log chunks found full sql tt) = Ok (fr, Some q) ->
    sql = Some q \/ from_pattern q.
Proof.
  induction chunks as [|c cs IH]; intros found full sql fr q H.
  - cbn in H. injection H as _ ->. now left.
  - cbn [process_loop] in H.
    pose proof (gen_body_some found c) as Hg.
    destruct (gen_body no_log found c tt) as [[e|[y found']] []];
      [discriminate|].
    specialize (Hg y found').
    pose proof (consume_some y full sql) as Hk.
    destruct (consume no_log y full sql tt) as [[e|[full' sql']] []];
      [discriminate|].
    apply IH in H. destruct H as [-> | H]; [|now right].
    destruct (Hk full' q eq_refl) as [-> | Hy]; [now left|].
    right. now apply (Hg q eq_refl).
Qed.

(** ** What the generator yields on a well-shaped stream *)

Lemma stream_loop_well_shaped (chunks : list pyval) :
  forallb well_shaped chunks = true ->
  forall found,
    fst (stream_loop no_log chunks found tt) = (gen_yields found chunks, None).
Proof.
  induction chunks as [|c cs IH]; intros H found; [reflexivity|].
  cbn [forallb] in H. apply andb_true_iff in H. destruct H as [Hc Hcs].
  cbn [stream_loop gen_yields].
  pose proof (gen_body_well_shaped found c Hc) as Hg.
  destruct (gen_body no_log found c tt) as [r []]. cbn [fst] in Hg. subst r.
  specialize (IH Hcs (found || is_some (first_some payload (chunk_actions c)))%bool).
  destruct (stream_loop no_log cs _ tt) as [[ys e] []].
  cbn [fst] in IH. injection IH as -> ->. reflexivity.
Qed.

(** A yield carries no query, or it carries the first match of the stream. *)
Lemma gen_yields_sql_query (chunks : list pyval) :
  forall found y,
    In y (gen_yields found chunks) ->
    y_sql_query y = None
    \/ (found = false
        /\ y_sql_query y
           = option_map Str.unescape
               (first_some payload (stream_actions chunks))).
Proof.
  induction chunks as [|c cs IH]; intros found y Hy; [contradiction|].
  cbn [gen_yields] in Hy. unfold stream_actions. cbn [flat_map].
  rewrite first_some_app.
  destruct Hy as [<- | Hy].
  - cbn [y_sql_query]. destruct found; [now left|].
    destruct (first_some payload (chunk_actions c)); [now right | now left].
  - apply IH in Hy. destruct Hy as [Hy | [Hf Hy]]; [now left|].
    apply orb_false_iff in Hf. destruct Hf as [-> Hq].
    destruct (first_some payload (chunk_actions c)); [discriminate|].
    now right.
Qed.

Lemma payload_marker (a : pyval) (p : string) :
  payload a = Some p ->
  exists t, action_tool a = Some t
            /\ Str.contains marker t = true
            /\ Str.re_search t = Some p.
Proof.
  unfold payload. destruct (action_tool a) as [t|]; [|discriminate].
  destruct (Str.contains marker t) eqn:E; [|discriminate].
  intros H. exists t. auto.
Qed.

Example scenario_result :
  fst (process_stream no_log scenario tt) = Ok ("Thinking...Done", Some "SELECT * FROM t").
Proof. reflexivity. Qed.

Example two_queries_result :
  fst (process_stream no_log two_queries tt) = Ok ("ab", Some "SELECT 1").
Proof. reflexivity. Qed.

(** ** The claims *)

(** C1, as stated, fails: in [empty_then_query] two actions match, the first
    match captures the empty payload, and [process_stream] returns no query at
    all rather than the payload of the first match. *)
Lemma first_match_empty_counterexample :
  forallb well_shaped empty_then_query = true
  /\ map payload (stream_actions empty_then_query) = [Some ""; Some "SELECT 1"]
  /\ fst (process_stream no_log empty_then_query tt) = Ok ("", None)
  /\ fst (process_stream no_log empty_then_query tt)
     <> Ok ("", first_some payload (stream_actions empty_then_query)).
Proof. repeat split; try reflexivity. discriminate. Qed.

(** C1 (amended): on a well-shaped stream whose first matching action, in
    stream order, carries the payload [p], whatever matches follow it,
    [process_stream] returns the unescaped [p] as [sql_query] when [p] is not
    empty and [None] when it is; no later match takes its place: every dict
    the generator yields carries no query or the unescaped [p], and a
    [sql_query] already captured by the consumer is never overwritten by the
    rest of the stream. *)
Theorem first_match_wins
        {Sink : Type} (log : level -> log_msg -> Sink -> Sink) (sink : Sink)
        (chunks : list pyval) (pre post : list pyval) (a : pyval) (p : string) :
  forallb well_shaped chunks = true ->
  stream_actions chunks = (pre ++ a :: post)%list ->
  (forall x, In x pre -> payload x = None) ->
  payload a = Some p ->
  fst (process_stream log chunks sink)
  = Ok (concat_outputs chunks,
        if Str.is_empty p then None else Some (Str.unescape p))
  /\ (forall y,
         In y (fst (fst (stream_and_parse_sql_query log chunks sink))) ->
         y_sql_query y = None \/ y_sql_query y = Some (Str.unescape p))
  /\ (forall found full q,
         fst (process_loop log chunks found full (Some q) sink)
         = Ok (full ++ concat_outputs chunks, Some q)).
Proof.
  intros Hws Hsplit Hpre Ha.
  pose proof (first_some_split payload pre post a p Hpre Ha) as Hfirst.
  rewrite <- Hsplit in Hfirst. repeat split.
  - rewrite (process_stream_well_shaped log chunks sink Hws), Hfirst.
    cbn [option_map kept]. now rewrite unescape_is_empty.
  - intros y Hy. unfold stream_and_parse_sql_query in Hy.
    rewrite stream_loop_fst, (stream_loop_well_shaped chunks Hws) in Hy.
    cbn [fst] in Hy.
    destruct (gen_yields_sql_query chunks false y Hy) as [H | [_ H]];
      [now left|].
    right. now rewrite H, Hfirst.
  - intros found full q. rewrite process_loop_fst.
    now rewrite (process_loop_well_shaped chunks Hws).
Qed.

Lemma first_match_wins_witness :
  fst (process_stream no_log two_queries tt)
  = Ok (concat_outputs two_queries, Some (Str.unescape "SELECT 1")).
Proof.
  apply (proj1 (first_match_wins no_log tt two_queries []
                  [action_of (sql_tool "SELECT 2")]
                  (action_of (sql_tool "SELECT 1")) "SELECT 1"
                  eq_refl eq_refl (fun x (H : In x []) => match H with end)
                  eq_refl)).
Defined.

(** C2, as stated, fails: [empty_query] holds exactly one matching action, its
    payload is the empty string, and [process_stream] returns [None], not the
    empty string. *)
Lemma single_match_empty_counterexample :
  forallb well_shaped empty_query = true
  /\ map payload (stream_actions empty_query) = [Some ""]
  /\ fst (process_stream no_log empty_query tt) = Ok ("", None)
  /\ fst (process_stream no_log empty_query tt)
     <> Ok ("", Some (Str.unescape "")).
Proof. repeat split; try reflexivity. discriminate. Qed.

(** C2 (amended): on a well-shaped stream with exactly one matching action,
    of payload [p], [process_stream] returns as [sql_query] the payload with
    its escaped single quotes unescaped when [p] is not empty, and [None] when
    [p] is empty. *)
Theorem single_match_payload
        {Sink : Type} (log : level -> log_msg -> Sink -> Sink) (sink : Sink)
        (chunks : list pyval) (pre post : list pyval) (a : pyval) (p : string) :
  forallb well_shaped chunks = true ->
  stream_actions chunks = (pre ++ a :: post)%list ->
  (forall x, In x pre \/ In x post -> payload x = None) ->
  payload a = Some p ->
  fst (process_stream log chunks sink)
  = Ok (concat_outputs chunks,
        if Str.is_empty p then None else Some (Str.unescape p)).
Proof.
  intros Hws Hsplit Hothers Ha.
  rewrite (process_stream_well_shaped log chunks sink Hws), Hsplit.
  rewrite (first_some_split payload pre post a p); auto.
  cbn [option_map kept]. now rewrite unescape_is_empty.
Qed.

Lemma single_match_payload_witness :
  fst (process_stream no_log scenario tt)
  = Ok (concat_outputs scenario, Some (Str.unescape "SELECT * FROM t")).
Proof.
  apply (single_match_payload no_log tt scenario [] []
           (action_of (sql_tool "SELECT * FROM t")) "SELECT * FROM t"
           eq_refl eq_refl).
  - intros x [[]|[]].
  - reflexivity.
Defined.

(** C3: whenever [process_stream] returns, its [full_response] is the
    concatenation, in arrival order, of the text of each chunk's output (the
    chunk itself for a text chunk, the ['output'] field or the empty string
    for a record); and on every well-shaped stream it does return. *)
Theorem full_response_is_concatenation
        {Sink : Type} (log : level -> log_msg -> Sink -> Sink) (sink : Sink)
        (chunks : list pyval) :
  (forall full_response sql_query,
      fst (process_stream log chunks sink) = Ok (full_response, sql_query) ->
      full_response = concat_outputs chunks)
  /\ (forallb well_shaped chunks = true ->
      exists sql_query,
        fst (process_stream log chunks sink)
        = Ok (concat_outputs chunks, sql_query)).
Proof.
  split.
  - intros fr q H. rewrite process_stream_fst in H.
    now apply process_loop_full in H.
  - intros Hws. eexists. now apply process_stream_well_shaped.
Qed.

Lemma full_response_is_concatenation_witness :
  "Thinking...Done" = concat_outputs scenario
  /\ exists sql_query,
      fst (process_stream no_log scenario tt)
      = Ok (concat_outputs scenario, sql_query).
Proof.
  split.
  - apply (proj1 (full_response_is_concatenation no_log tt scenario)
             "Thinking...Done" (Some "SELECT * FROM t")).
    reflexivity.
  - apply (proj2 (full_response_is_concatenation no_log tt scenario)).
    reflexivity.
Defined.

(** C4: on a well-shaped stream in which no action's tool string holds the
    marker, [process_stream] returns [sql_query = None]. *)
Theorem no_marker_no_query
        {Sink : Type} (log : level -> log_msg -> Sink -> Sink) (sink : Sink)
        (chunks : list pyval) :
  forallb well_shaped chunks = true ->
  (forall a t, In a (stream_actions chunks) -> action_tool a = Some t ->
               Str.contains marker t = false) ->
  fst (process_stream log chunks sink) = Ok (concat_outputs chunks, None).
Proof.
  intros Hws Hno.
  rewrite (process_stream_well_shaped log chunks sink Hws).
  rewrite first_some_none; [reflexivity|].
  intros a Ha. unfold payload.
  destruct (action_tool a) as [t|] eqn:E; [|reflexivity].
  now rewrite (Hno a t Ha E).
Qed.

Lemma no_marker_no_query_witness :
  fst (process_stream no_log other_tool tt) = Ok (concat_outputs other_tool, None).
Proof.
  apply (no_marker_no_query no_log tt other_tool eq_refl).
  intros a t [<- | []] [= <-]. reflexivity.
Defined.

(** C5: the query the generator yields for a captured payload [p] is
    [Str.unescape p], in which every escaped single quote of [p] has become a
    bare single quote: at each occurrence the two characters are replaced by
    the quote and the text on either side is treated the same way, and a
    payload without occurrences is returned as it is. *)
Theorem escaped_quotes_unescaped
        {Sink : Type} (log : level -> log_msg -> Sink -> Sink) (sink : Sink)
        (tool p : string) :
  Str.contains marker tool = true ->
  Str.re_search tool = Some p ->
  fst (gen_body log false (PDict [("actions", PList [action_of tool])]) sink)
  = Ok (mk_yielded (PStr "") (Some (Str.unescape p)), true)
  /\ (forall p1 p2, p = p1 ++ escaped_quote ++ p2 ->
                    Str.unescape p
                    = Str.unescape p1 ++ String Str.squote (Str.unescape p2))
  /\ ((forall p1 p2, p <> p1 ++ escaped_quote ++ p2) -> Str.unescape p = p).
Proof.
  intros Hm Hp. repeat split.
  - rewrite gen_body_fst, gen_body_well_shaped by reflexivity.
    cbn [chunk_actions Py.dict_get String.eqb Ascii.eqb Bool.eqb first_some].
    unfold payload. cbn. rewrite Hm, Hp. reflexivity.
  - intros p1 p2 ->. apply unescape_split.
  - apply unescape_id.
Qed.

Lemma escaped_quotes_unescaped_witness :
  fst (gen_body no_log false
         (PDict [("actions", PList [action_of (sql_tool escaped_payload)])]) tt)
  = Ok (mk_yielded (PStr "") (Some "SELECT 'a'"), true).
Proof.
  exact (proj1 (escaped_quotes_unescaped no_log tt (sql_tool escaped_payload)
                  escaped_payload eq_refl eq_refl)).
Defined.

(** C6, as stated, fails: the record of [null_tool] has an action whose tool
    is null, and both the generator and [process_stream] end in a TypeError
    on it. *)
Lemma null_tool_raises_counterexample :
  fst (stream_and_parse_sql_query no_log null_tool tt) = ([], Some TypeError)
  /\ fst (process_stream no_log null_tool tt) = Raise TypeError.
Proof. split; reflexivity. Qed.

(** *** Tolerated chunks *)

Lemma process_loop_step (c : pyval) (cs : list pyval) (found found' : bool)
      (full full' : string) (sql sql' : option string) (y : yielded) :
  fst (gen_body no_log found c tt) = Ok (y, found') ->
  fst (consume no_log y full sql tt) = Ok (full', sql') ->
  fst (process_loop no_log (c :: cs) found full sql tt)
  = fst (process_loop no_log cs found' full' sql' tt).
Proof.
  intros Hg Hk. cbn [process_loop].
  destruct (gen_body no_log found c tt) as [r []]. cbn [fst] in Hg. subst r.
  destruct (consume no_log y full sql tt) as [r []]. cbn [fst] in Hk. subst r.
  reflexivity.
Qed.

Lemma process_loop_gen_raise (c : pyval) (cs : list pyval) (found : bool)
      (full : string) (sql : option string) (e : exn) :
  fst (gen_body no_log found c tt) = Raise e ->
  fst (process_loop no_log (c :: cs) found full sql tt) = Raise e.
Proof.
  intros Hg. cbn [process_loop].
  destruct (gen_body no_log found c tt) as [r []]. cbn [fst] in Hg. now subst r.
Qed.


Lemma well_shaped_tolerated (chunk : pyval) :
  well_shaped chunk = true -> tolerated chunk = true.
Proof.
  unfold tolerated, falsy_or_text.
  destruct chunk as [| | |s| |d]; try discriminate.
  - intros _. cbn. apply orb_true_r.
  - cbn [well_shaped tolerated_by_generator chunk_output]. intros H.
    apply andb_true_iff in H. destruct H as [Ho Ha].
    apply andb_true_iff. split.
    + destruct (Py.dict_get "actions" d) as [[| | | |l|]|];
        try discriminate; [exact Ha | reflexivity].
    + destruct (Py.dict_get "output" d) as [[| | |s| |]|]; try discriminate;
        apply orb_true_r.
Qed.

Lemma gen_body_tolerated (found : bool) (chunk : pyval) :
  tolerated_by_generator chunk = true ->
  fst (gen_body no_log found chunk tt)
  = Ok (mk_yielded (chunk_output chunk)
                   (if found then None
                    else option_map Str.unescape
                           (first_some payload (chunk_actions chunk))),
        (found || is_some (first_some payload (chunk_actions chunk)))%bool).
Proof.
  intros H. unfold gen_body. cbn [fst].
  assert (Hplain : forall o,
             Ok (mk_yielded o None, found)
             = Ok (mk_yielded o (if found then None
                                 else option_map Str.unescape
                                        (first_some payload [])),
                   (found || is_some (first_some payload []))%bool)).
  { intros o. cbn. rewrite orb_false_r. now destruct found. }
  destruct chunk as [| | |s| |d]; try apply Hplain.
  cbn [tolerated_by_generator] in H. cbn [chunk_output chunk_actions].
  destruct (Py.dict_get "actions" d) as [acts|]; [|apply Hplain].
  assert (Hfalse : Py.truthy acts = false ->
                   (if Py.truthy acts
                    then items <- Py.iter acts ;;
                         sql_query <- scan_actions found items ;;
                         Ok (mk_yielded (match Py.dict_get "output" d with
                                         | Some v => v
                                         | None => PStr ""
                                         end) sql_query,
                             (found || is_some sql_query)%bool)
                    else Ok (mk_yielded (match Py.dict_get "output" d with
                                         | Some v => v
                                         | None => PStr ""
                                         end) None, found))
                   = Ok (mk_yielded (match Py.dict_get "output" d with
                                     | Some v => v
                                     | None => PStr ""
                                     end)
                                    (if found then None
                                     else option_map Str.unescape
                                            (first_some payload [])),
                         (found || is_some (first_some payload []))%bool)).
  { intros ->. apply Hplain. }
  destruct acts as [|b|z|s|l|d'];
    try (apply Hfalse; apply negb_true_iff; exact H).
  destruct l as [|a l]; [now apply Hfalse|].
  cbn [tolerated_actions] in H.
  - cbn [Py.truthy Py.iter bind].
    rewrite (scan_actions_well_shaped found (a :: l) H). cbn [bind].
    destruct found; cbn [orb is_some]; [reflexivity|].
    destruct (first_some payload (a :: l)); reflexivity.
Qed.

Lemma consume_tolerated (v : pyval) (q : option string) (full : string)
      (sql : option string) :
  falsy_or_text v = true ->
  fst (consume no_log (mk_yielded v q) full sql tt)
  = Ok (full ++ text_of v, match sql with
                           | Some x => Some x
                           | None => kept q
                           end).
Proof.
  intros H. destruct v as [| | |s| |];
    try apply consume_text;
    unfold falsy_or_text in H; cbn [is_text] in H; rewrite orb_false_r in H;
    apply negb_true_iff in H;
    unfold consume; cbn [y_output y_sql_query]; rewrite H;
    cbn [text_of]; rewrite append_nil_r;
    destruct q as [q|], sql as [x|]; try reflexivity;
    unfold kept; now destruct (Str.is_empty q).
Qed.

Lemma process_loop_tolerated (chunks : list pyval) :
  forallb tolerated chunks = true ->
  forall found full sql,
    fst (process_loop no_log chunks found full sql tt)
    = Ok (full ++ concat_outputs chunks,
          match sql with
          | Some x => Some x
          | None =>
              if found then None
              else kept (option_map Str.unescape
                           (first_some payload (stream_actions chunks)))
          end).
Proof.
  induction chunks as [|c cs IH]; intros H found full sql.
  - cbn. rewrite append_nil_r. destruct sql, found; reflexivity.
  - cbn [forallb] in H. apply andb_true_iff in H. destruct H as [Hc Hcs].
    unfold tolerated in Hc. apply andb_true_iff in Hc. destruct Hc as [Hg Ho].
    rewrite (process_loop_step c cs found _ full _ sql _ _
               (gen_body_tolerated found c Hg) (consume_tolerated _ _ _ _ Ho)).
    rewrite (IH Hcs).
    unfold concat_outputs, stream_actions. cbn [map join fold_right flat_map].
    rewrite append_assoc, first_some_app.
    f_equal. f_equal.
    destruct sql as [x|]; [reflexivity|].
    destruct found; cbn [orb]; [reflexivity|].
    destruct (first_some payload (chunk_actions c)) as [p|]; cbn [is_some];
      [|reflexivity].
    cbn [option_map kept]. destruct (Str.is_empty (Str.unescape p)); reflexivity.
Qed.

Lemma stream_loop_tolerated (chunks : list pyval) :
  forallb tolerated_by_generator chunks = true ->
  forall found,
  exists ys,
    fst (stream_loop no_log chunks found tt) = (ys, None)
    /\ length ys = length chunks
    /\ map y_output ys = map chunk_output chunks.
Proof.
  induction chunks as [|c cs IH]; intros H found.
  - now exists [].
  - cbn [forallb] in H. apply andb_true_iff in H. destruct H as [Hc Hcs].
    cbn [stream_loop].
    pose proof (gen_body_tolerated found c Hc) as Hg.
    destruct (gen_body no_log found c tt) as [r []]. cbn [fst] in Hg. subst r.
    destruct (IH Hcs (found || is_some (first_some payload (chunk_actions c)))%bool)
      as (ys & Hys & Hlen & Hout).
    destruct (stream_loop no_log cs _ tt) as [[ys' e] []].
    cbn [fst] in Hys. injection Hys as -> ->.
    eexists. split; [reflexivity|]. cbn [length map y_output].
    now rewrite Hlen, Hout.
Qed.

(** C6 (amended): for chunks that are decoded JSON, the values the embedding
    ranges over and [json.dumps] renders for the debug line, absent, null and
    false fields degrade gracefully.  The generator gets through every chunk
    that is not a record (text is its own output, anything else gives the
    empty output) and every record whose ['actions'] is absent, false (null,
    empty) or a list of records whose ['tool'] is absent or text: an absent
    ['output'] defaults to the empty text, absent ['actions'] give no query,
    a chunk none of whose actions matches yields [sql_query = None] and
    leaves the flag alone, and on a stream of such chunks the generator never
    raises and yields once per chunk, each output being that of its chunk.
    [process_stream] never raises on them either when each ['output'] is
    absent, false or text.  The chunks of the data model are among them. *)
Theorem tolerated_chunks_never_raise
        {Sink : Type} (log : level -> log_msg -> Sink -> Sink) (sink : Sink) :
  (forall chunk, well_shaped chunk = true -> tolerated chunk = true)
  /\ (forall found d,
         tolerated_by_generator (PDict d) = true ->
         Py.dict_get "output" d = None ->
         exists q found',
           fst (gen_body log found (PDict d) sink)
           = Ok (mk_yielded (PStr "") q, found'))
  /\ (forall found d,
         Py.dict_get "actions" d = None ->
         fst (gen_body log found (PDict d) sink)
         = Ok (mk_yielded (chunk_output (PDict d)) None, found))
  /\ (forall found chunk,
         tolerated_by_generator chunk = true ->
         (forall a, In a (chunk_actions chunk) -> payload a = None) ->
         fst (gen_body log found chunk sink)
         = Ok (mk_yielded (chunk_output chunk) None, found))
  /\ (forall chunks,
         forallb tolerated_by_generator chunks = true ->
         exists ys,
           fst (stream_and_parse_sql_query log chunks sink) = (ys, None)
           /\ length ys = length chunks
           /\ map y_output ys = map chunk_output chunks)
  /\ (forall chunks,
         forallb tolerated chunks = true ->
         exists sql_query,
           fst (process_stream log chunks sink)
           = Ok (concat_outputs chunks, sql_query)).
Proof.
  assert (Hnone : forall found chunk,
             tolerated_by_generator chunk = true ->
             (forall a, In a (chunk_actions chunk) -> payload a = None) ->
             fst (gen_body log found chunk sink)
             = Ok (mk_yielded (chunk_output chunk) None, found)).
  { intros found chunk Ht Hno.
    rewrite gen_body_fst, (gen_body_tolerated found chunk Ht).
    rewrite (first_some_none payload _ Hno). cbn [option_map is_some].
    rewrite orb_false_r. now destruct found. }
  split; [exact well_shaped_tolerated|].
  split.
  { intros found d Ht Hout.
    rewrite gen_body_fst, (gen_body_tolerated found (PDict d) Ht).
    cbn [chunk_output]. rewrite Hout. eauto. }
  split.
  { intros found d Hact. apply Hnone.
    - cbn [tolerated_by_generator]. now rewrite Hact.
    - cbn [chunk_actions]. rewrite Hact. intros a []. }
  split; [exact Hnone|].
  split.
  - intros chunks H. unfold stream_and_parse_sql_query.
    rewrite stream_loop_fst. now apply stream_loop_tolerated.
  - intros chunks H. eexists. rewrite process_stream_fst.
    now rewrite (process_loop_tolerated chunks H).
Qed.

Lemma tolerated_chunks_never_raise_witness :
  tolerated (PDict [("actions", PList [PDict []])]) = true
  /\ fst (gen_body no_log false (PDict []) tt)
     = Ok (mk_yielded (PStr "") None, false)
  /\ (exists ys,
         fst (stream_and_parse_sql_query no_log (odd_chunks ++ scenario) tt)
         = (ys, None)
         /\ length ys = length (odd_chunks ++ scenario)
         /\ map y_output ys = map chunk_output (odd_chunks ++ scenario))
  /\ exists sql_query,
      fst (process_stream no_log (odd_chunks ++ scenario) tt)
      = Ok (concat_outputs (odd_chunks ++ scenario), sql_query).
Proof.
  pose proof (tolerated_chunks_never_raise no_log tt)
    as (H1 & _ & H3 & _ & H5 & H6).
  split; [apply H1; reflexivity|].
  split; [apply (H3 false []); reflexivity|].
  split; [apply H5; reflexivity | apply H6; reflexivity].
Defined.

Example odd_chunks_run :
  fst (process_stream no_log odd_chunks tt) = Ok ("a", None)
  /\ map y_output (fst (fst (stream_and_parse_sql_query no_log odd_chunks tt)))
     = [PStr ""; PStr ""; PNone; PStr "a"].
Proof. split; reflexivity. Qed.

(** C7: a text chunk yields exactly its own text as output and no query,
    whatever the flag; hence the two text chunks of the scenario give the
    response [Hello world] and no query. *)
Theorem text_chunk_passes_through
        {Sink : Type} (log : level -> log_msg -> Sink -> Sink) (sink : Sink)
        (s : string) (found : bool) :
  fst (gen_body log found (PStr s) sink)
  = Ok (mk_yielded (PStr s) None, found)
  /\ fst (stream_and_parse_sql_query log [PStr s] sink)
     = ([mk_yielded (PStr s) None], None)
  /\ fst (process_stream log [PStr "Hello "; PStr "world"] sink)
     = Ok ("Hello world", None).
Proof.
  split; [reflexivity | split; reflexivity].
Qed.

(** C8: the results of [process_stream] and of one turn of the generator do
    not depend on the logger, its state, or anything but the chunks and the
    flag: two runs on the same sequence, under any two loggers in any two
    states, return the same pair, and one pure function of the flag and the
    chunk gives what every turn of the generator yields. *)
Theorem results_are_deterministic :
  (forall (Sink1 Sink2 : Type)
          (log1 : level -> log_msg -> Sink1 -> Sink1)
          (log2 : level -> log_msg -> Sink2 -> Sink2)
          (sink1 : Sink1) (sink2 : Sink2) (chunks : list pyval),
      fst (process_stream log1 chunks sink1)
      = fst (process_stream log2 chunks sink2))
  /\ (exists extract : bool -> pyval -> result (yielded * bool),
         forall (Sink : Type) (log : level -> log_msg -> Sink -> Sink)
                (sink : Sink) (found : bool) (chunk : pyval),
           fst (gen_body log found chunk sink) = extract found chunk).
Proof.
  split.
  - intros. now rewrite !process_stream_fst.
  - exists (fun found chunk => fst (gen_body no_log found chunk tt)).
    intros. apply gen_body_fst.
Qed.

(** C9: on a well-shaped stream whose first matching action captures the
    empty payload, [process_stream] returns [sql_query = None] whatever
    follows: the flag is set by the empty capture, so no yield of the
    generator carries a later, non-empty payload. *)
Theorem empty_payload_latches
        {Sink : Type} (log : level -> log_msg -> Sink -> Sink) (sink : Sink)
        (chunks : list pyval) (pre post : list pyval) (a : pyval) :
  forallb well_shaped chunks = true ->
  stream_actions chunks = (pre ++ a :: post)%list ->
  (forall x, In x pre -> payload x = None) ->
  payload a = Some "" ->
  fst (process_stream log chunks sink) = Ok (concat_outputs chunks, None)
  /\ (forall y,
         In y (fst (fst (stream_and_parse_sql_query log chunks sink))) ->
         y_sql_query y = None \/ y_sql_query y = Some "").
Proof.
  intros Hws Hsplit Hpre Ha.
  pose proof (first_some_split payload pre post a "" Hpre Ha) as Hfirst.
  rewrite <- Hsplit in Hfirst. split.
  - rewrite (process_stream_well_shaped log chunks sink Hws), Hfirst.
    reflexivity.
  - intros y Hy. unfold stream_and_parse_sql_query in Hy.
    rewrite stream_loop_fst, (stream_loop_well_shaped chunks Hws) in Hy.
    cbn [fst] in Hy.
    destruct (gen_yields_sql_query chunks false y Hy) as [H | [_ H]];
      [now left|].
    right. now rewrite H, Hfirst.
Qed.

Lemma empty_payload_latches_witness :
  fst (process_stream no_log empty_then_query tt)
  = Ok (concat_outputs empty_then_query, None).
Proof.
  apply (proj1 (empty_payload_latches no_log tt empty_then_query []
                  [action_of (sql_tool "SELECT 1")] (action_of (sql_tool ""))
                  eq_refl eq_refl (fun x (H : In x []) => match H with end)
                  eq_refl)).
Defined.

(** C10: the payload of a matching action is the text of its tool string that
    stands between the literal and the nearest double quote after it, at the
    leftmost place where the pattern matches: the payload holds no double
    quote and a double quote follows it.  Hence no [sql_query] returned by
    [process_stream], on any stream, holds a double quote. *)
Theorem payload_stops_at_first_quote :
  (forall a p,
      payload a = Some p ->
      exists t pre post,
        action_tool a = Some t
        /\ t = pre ++ Str.tool_input_lit ++ p ++ String Str.dquote post
        /\ Str.mem Str.dquote p = false
        /\ (forall x y, pre = x ++ y -> y <> "" ->
                        Str.match_here
                          (y ++ Str.tool_input_lit ++ p ++ String Str.dquote post)
                        = None))
  /\ (forall (Sink : Type) (log : level -> log_msg -> Sink -> Sink)
             (sink : Sink) (chunks : list pyval) full_response q,
         fst (process_stream log chunks sink) = Ok (full_response, Some q) ->
         Str.mem Str.dquote q = false).
Proof.
  split.
  - intros a p Ha.
    destruct (payload_marker a p Ha) as (t & Ht & _ & Hs).
    destruct (re_search_leftmost t p Hs) as (pre & rest & -> & Hm & Hleft).
    destruct (match_here_spec rest p Hm) as (post & -> & Hq & _).
    exists (pre ++ Str.tool_input_lit ++ p ++ String Str.dquote post), pre, post.
    auto.
  - intros Sink log sink chunks fr q H.
    rewrite process_stream_fst in H.
    destruct (process_loop_some _ _ _ _ _ _ H) as [E | (t & p & Hs & ->)];
      [discriminate|].
    destruct (re_search_spec t p Hs) as (pre & post & _ & Hq & _).
    now rewrite unescape_mem_dquote.
Qed.

Lemma payload_stops_at_first_quote_witness :
  (exists t pre post,
      action_tool (action_of (sql_tool "SELECT * FROM t")) = Some t
      /\ t = pre ++ Str.tool_input_lit ++ "SELECT * FROM t"
               ++ String Str.dquote post
      /\ Str.mem Str.dquote "SELECT * FROM t" = false
      /\ (forall x y, pre = x ++ y -> y <> "" ->
                      Str.match_here
                        (y ++ Str.tool_input_lit ++ "SELECT * FROM t"
                           ++ String Str.dquote post)
                      = None))
  /\ Str.mem Str.dquote "SELECT * FROM t" = false.
Proof.
  split.
  - apply (proj1 payload_stops_at_first_quote
             (action_of (sql_tool "SELECT * FROM t")) "SELECT * FROM t").
    reflexivity.
  - apply (proj2 payload_stops_at_first_quote unit no_log tt scenario
             "Thinking...Done" "SELECT * FROM t").
    reflexivity.
Defined.

(** * Further properties of the stream parser *)

(** ** The flag on any stream *)

Lemma scan_actions_latched (actions : list pyval) (q : option string) :
  scan_actions true actions = Ok q -> q = None.
Proof.
  induction actions as [|a l IH]; [now intros [= <-]|].
  cbn [scan_actions]. unfold bind.
  destruct (Py.contains "tool" a) as [e|[|]]; [discriminate| |exact IH].
  destruct (Py.getitem a "tool") as [e|tool]; [discriminate|].
  destruct (Py.contains marker tool) as [e|[|]]; [discriminate| |exact IH].
  destruct (Py.re_search tool) as [e|[p|]]; [discriminate| |exact IH].
  exact IH.
Qed.

Lemma gen_body_flag (found : bool) (chunk : pyval) (y : yielded) (found' : bool) :
  fst (gen_body no_log found chunk tt) = Ok (y, found') ->
  found' = (found || has_query y)%bool
  /\ (found = true -> y_sql_query y = None).
Proof.
  unfold gen_body, has_query. cbn [fst].
  assert (Hplain : forall o,
             Ok (mk_yielded o None, found) = Ok (y, found') ->
             found' = (found || is_some (y_sql_query y))%bool
             /\ (found = true -> y_sql_query y = None)).
  { intros o [= <- <-]. cbn. now rewrite orb_false_r. }
  destruct chunk as [| | |s| |d]; try apply Hplain.
  destruct (Py.dict_get "actions" d) as [acts|]; [|apply Hplain].
  destruct (Py.truthy acts); [|apply Hplain].
  destruct (Py.iter acts) as [e|items]; cbn [bind]; [discriminate|].
  destruct (scan_actions found items) as [e|q] eqn:E; cbn [bind];
    [discriminate|].
  intros [= <- <-]. cbn [y_sql_query]. split; [reflexivity|].
  intros ->. now apply scan_actions_latched in E.
Qed.

Lemma stream_loop_queries (chunks : list pyval) :
  forall found,
    length (filter has_query (fst (fst (stream_loop no_log chunks found tt))))
    <= (if found then 0 else 1).
Proof.
  induction chunks as [|c cs IH]; intros found.
  - cbn. destruct found; lia.
  - cbn [stream_loop].
    pose proof (gen_body_flag found c) as Hg.
    destruct (gen_body no_log found c tt) as [[e|[y found']] []].
    + cbn. destruct found; lia.
    + destruct (Hg y found' eq_refl) as [-> Hnone].
      specialize (IH (found || has_query y)%bool).
      destruct (stream_loop no_log cs (found || has_query y)%bool tt)
        as [[ys e] []].
      cbn [fst filter] in *.
      destruct found.
      * unfold has_query at 1. rewrite (Hnone eq_refl). cbn. exact IH.
      * cbn [orb] in IH. destruct (has_query y); cbn [length]; lia.
Qed.

Lemma stream_loop_outputs (chunks : list pyval) :
  forall found ys e,
    fst (stream_loop no_log chunks found tt) = (ys, e) ->
    map y_output ys = map chunk_output (firstn (length ys) chunks)
    /\ (e = None -> length ys = length chunks)
    /\ (e <> None -> length ys < length chunks).
Proof.
  induction chunks as [|c cs IH]; intros found ys e H.
  - cbn in H. injection H as <- <-. cbn.
    split; [reflexivity | split; [reflexivity | congruence]].
  - cbn [stream_loop] in H.
    pose proof (gen_body_output found c) as Hg.
    destruct (gen_body no_log found c tt) as [[e'|[y found']] []].
    + cbn in H. injection H as <- <-. cbn.
      split; [reflexivity | split; [discriminate | lia]].
    + specialize (Hg y found' eq_refl).
      specialize (IH found').
      destruct (stream_loop no_log cs found' tt) as [[ys' e'] []].
      cbn [fst] in *. injection H as <- <-.
      destruct (IH ys' e' eq_refl) as (Hm & Hn & Hs).
      cbn [length firstn map]. rewrite Hm, Hg.
      split; [reflexivity | split; intros He].
      * now rewrite (Hn He).
      * specialize (Hs He). lia.
Qed.

(** X1: on any stream of values, at most one of the dicts the generator yields
    carries a query: the docstring's promise that only the first query found
    is yielded. *)
Theorem at_most_one_query_yielded
        {Sink : Type} (log : level -> log_msg -> Sink -> Sink) (sink : Sink)
        (chunks : list pyval) :
  length (filter has_query
            (fst (fst (stream_and_parse_sql_query log chunks sink)))) <= 1.
Proof.
  unfold stream_and_parse_sql_query. rewrite stream_loop_fst.
  exact (stream_loop_queries chunks false).
Qed.

(** X2: on any stream of values the generator yields one dict per chunk, in
    order, up to the first chunk that raises: each yielded output is the
    output of the chunk at the same place, unchanged; without an exception
    there are as many yields as chunks, and with one there are fewer. *)
Theorem yields_follow_chunks
        {Sink : Type} (log : level -> log_msg -> Sink -> Sink) (sink : Sink)
        (chunks : list pyval) (ys : list yielded) (e : option exn) :
  fst (stream_and_parse_sql_query log chunks sink) = (ys, e) ->
  map y_output ys = map chunk_output (firstn (length ys) chunks)
  /\ (e = None -> length ys = length chunks)
  /\ (e <> None -> length ys < length chunks).
Proof.
  unfold stream_and_parse_sql_query. rewrite stream_loop_fst.
  apply stream_loop_outputs.
Qed.

Lemma yields_follow_chunks_witness :
  map y_output [mk_yielded (PStr "a") None]
  = map chunk_output (firstn 1 (PStr "a" :: null_tool))
  /\ (Some TypeError = None -> 1 = 2)
  /\ (Some TypeError <> None -> 1 < 2).
Proof.
  exact (yields_follow_chunks no_log tt (PStr "a" :: null_tool)
           [mk_yielded (PStr "a") None] (Some TypeError) eq_refl).
Defined.
(** ** Outputs that are not text *)

Lemma scan_actions_raises (found : bool) (actions : list pyval) (e : exn) :
  scan_actions found actions = Raise e -> e = TypeError.
Proof.
  induction actions as [|a l IH]; [discriminate|].
  cbn [scan_actions]. unfold bind.
  destruct a as [|b|z|s|l'|d]; cbn [Py.contains]; try (now intros [= <-]).
  - destruct (Str.contains "tool" s); [now intros [= <-] | exact IH].
  - destruct (existsb (Py.is_str "tool") l'); [now intros [= <-] | exact IH].
  - cbn [Py.getitem].
    destruct (Py.dict_get "tool" d) as [tool|]; [|exact IH].
    destruct tool as [|b|z|t|l'|d']; cbn [Py.contains Py.re_search];
      try (now intros [= <-]).
    + destruct (Str.contains marker t); [|exact IH].
      destruct (Str.re_search t); [|exact IH].
      destruct (negb found); [discriminate | exact IH].
    + destruct (existsb (Py.is_str marker) l'); [now intros [= <-] | exact IH].
    + destruct (Py.dict_get marker d'); [now intros [= <-] | exact IH].
Qed.

Lemma gen_body_raises (found : bool) (chunk : pyval) (e : exn) :
  fst (gen_body no_log found chunk tt) = Raise e -> e = TypeError.
Proof.
  unfold gen_body. cbn [fst].
  destruct chunk as [| | |s| |d]; try discriminate.
  destruct (Py.dict_get "actions" d) as [acts|]; [|discriminate].
  destruct (Py.truthy acts); [|discriminate].
  destruct acts as [|b|z|s|l|d']; cbn [Py.iter bind];
    try (now intros [= <-]).
  - destruct (scan_actions found (Py.chars s)) eqn:E; cbn [bind];
      [intros [= <-]; now apply scan_actions_raises in E | discriminate].
  - destruct (scan_actions found l) eqn:E; cbn [bind];
      [intros [= <-]; now apply scan_actions_raises in E | discriminate].
  - destruct (scan_actions found (map (fun kv => PStr (fst kv)) d')) eqn:E;
      cbn [bind];
      [intros [= <-]; now apply scan_actions_raises in E | discriminate].
Qed.

Lemma consume_not_text (y : yielded) (full : string) (sql : option string) :
  Py.truthy (y_output y) = true ->
  is_text (y_output y) = false ->
  fst (consume no_log y full sql tt) = Raise TypeError.
Proof.
  intros Ht Hs. unfold consume. rewrite Ht.
  destruct (y_output y); try discriminate; reflexivity.
Qed.

Lemma process_loop_not_text (pre rest : list pyval)
      (d : list (string * pyval)) (v : pyval) :
  forallb well_shaped pre = true ->
  Py.dict_get "output" d = Some v ->
  Py.truthy v = true ->
  is_text v = false ->
  forall found full sql,
    fst (process_loop no_log (pre ++ PDict d :: rest) found full sql tt)
    = Raise TypeError.
Proof.
  intros Hpre Hout Ht Hs.
  induction pre as [|c cs IH]; intros found full sql.
  - cbn [app process_loop].
    pose proof (gen_body_raises found (PDict d)) as Hr.
    pose proof (gen_body_output found (PDict d)) as Ho.
    destruct (gen_body no_log found (PDict d) tt) as [[e|[y found']] []];
      cbn [fst] in *.
    + now rewrite (Hr e eq_refl).
    + specialize (Ho y found' eq_refl). cbn [chunk_output] in Ho.
      rewrite Hout in Ho.
      pose proof (consume_not_text y full sql) as Hk.
      rewrite Ho in Hk. specialize (Hk Ht Hs).
      destruct (consume no_log y full sql tt) as [r []]. cbn [fst] in Hk.
      now subst r.
  - cbn [forallb] in Hpre. apply andb_true_iff in Hpre. destruct Hpre as [Hc Hcs].
    cbn [app].
    rewrite (process_loop_step c _ found _ full _ sql _ _
               (gen_body_well_shaped found c Hc) (consume_text _ _ _ _)).
    now apply IH.
Qed.

(** X3: a record whose output is a true value that is not text (a number, a
    list, a record) ends [process_stream] in a TypeError, whatever its
    actions are, wherever it stands after well-shaped chunks and whatever
    follows it: either the generator raises a TypeError on the record's
    actions, or it yields the output unchanged and the consumer cannot add it
    to the response.  When the record's actions are absent or false the
    generator yields exactly this output and no query. *)
Theorem non_text_output_raises
        {Sink : Type} (log : level -> log_msg -> Sink -> Sink) (sink : Sink)
        (pre rest : list pyval) (d : list (string * pyval)) (v : pyval) :
  forallb well_shaped pre = true ->
  Py.dict_get "output" d = Some v ->
  Py.truthy v = true ->
  is_text v = false ->
  (forall found y found',
      fst (gen_body log found (PDict d) sink) = Ok (y, found') ->
      y_output y = v)
  /\ (forall found,
         match Py.dict_get "actions" d with
         | Some actions => Py.truthy actions = false
         | None => True
         end ->
         fst (gen_body log found (PDict d) sink)
         = Ok (mk_yielded v None, found))
  /\ fst (process_stream log (pre ++ PDict d :: rest) sink) = Raise TypeError.
Proof.
  intros Hpre Hout Ht Hs. split; [|split].
  - intros found y found' H. rewrite gen_body_fst in H.
    apply gen_body_output in H. cbn [chunk_output] in H. now rewrite Hout in H.
  - intros found Hact. unfold gen_body. cbn [fst]. rewrite Hout.
    destruct (Py.dict_get "actions" d) as [acts|]; [|reflexivity].
    now rewrite Hact.
  - rewrite process_stream_fst.
    now apply (process_loop_not_text pre rest d v).
Qed.

Lemma non_text_output_raises_witness :
  fst (gen_body no_log false
         (PDict [("output", PInt 5); ("actions", PList [])]) tt)
  = Ok (mk_yielded (PInt 5) None, false)
  /\ fst (process_stream no_log
            (scenario ++ PDict [("output", PInt 5); ("actions", PList [PNone])]
               :: [PStr "x"]) tt)
     = Raise TypeError.
Proof.
  split.
  - apply (proj1 (proj2 (non_text_output_raises no_log tt [] []
                           [("output", PInt 5); ("actions", PList [])] (PInt 5)
                           eq_refl eq_refl eq_refl eq_refl)) false).
    reflexivity.
  - apply (proj2 (proj2 (non_text_output_raises no_log tt scenario [PStr "x"]
                           [("output", PInt 5); ("actions", PList [PNone])]
                           (PInt 5) eq_refl eq_refl eq_refl eq_refl))).
Defined.

(** ** Chunks that change nothing *)

Lemma process_loop_inert (c : pyval) (cs : list pyval) :
  inert c = true ->
  forall found full sql,
    fst (process_loop no_log (c :: cs) found full sql tt)
    = fst (process_loop no_log cs found full sql tt).
Proof.
  intros Hc found full sql.
  assert (Hplain : forall o,
             Py.truthy o = false ->
             fst (match consume no_log (mk_yielded o None) full sql tt with
                  | (Raise e, sink) => (Raise e, sink)
                  | (Ok (full', sql'), sink) =>
                      process_loop no_log cs found full' sql' sink
                  end)
             = fst (process_loop no_log cs found full sql tt)).
  { intros o Ho. unfold consume. cbn [y_output y_sql_query]. rewrite Ho.
    now destruct sql. }
  cbn [process_loop gen_body].
  destruct c as [| | |s| |d]; try (apply Hplain; reflexivity).
  - apply Hplain. cbn in *. now rewrite Hc.
  - cbn [inert chunk_output] in Hc. apply andb_true_iff in Hc.
    destruct Hc as [Ho Ha]. apply negb_true_iff in Ho.
    destruct (Py.dict_get "actions" d) as [acts|]; [|now apply Hplain].
    apply negb_true_iff in Ha. rewrite Ha. now apply Hplain.
Qed.

(** X4: inert chunks never matter.  Dropping from any stream every chunk that
    is neither a record nor text, every empty text and every record whose
    output and actions are absent or false leaves the result of
    [process_stream] as it was, be it a pair or an exception. *)
Theorem inert_chunks_are_skipped
        {Sink : Type} (log : level -> log_msg -> Sink -> Sink) (sink : Sink)
        (chunks : list pyval) :
  fst (process_stream log (filter (fun c => negb (inert c)) chunks) sink)
  = fst (process_stream log chunks sink).
Proof.
  rewrite !process_stream_fst.
  generalize false, "", (@None string).
  induction chunks as [|c cs IH]; intros found full sql; [reflexivity|].
  cbn [filter]. destruct (inert c) eqn:E; cbn [negb].
  - rewrite (process_loop_inert c cs E). apply IH.
  - cbn [process_loop].
    destruct (gen_body no_log found c tt) as [[e|[y found']] []];
      [reflexivity|].
    destruct (consume no_log y full sql tt) as [[e|[full' sql']] []];
      [reflexivity|].
    apply IH.
Qed.

(** ** Streams put end to end *)

Lemma join_app (l1 l2 : list string) : join (l1 ++ l2) = join l1 ++ join l2.
Proof.
  unfold join. induction l1 as [|x l1 IH]; cbn; [reflexivity|].
  now rewrite IH, append_assoc.
Qed.

(** X5: for two well-shaped streams put end to end, the response is the two
    responses joined, and the query is that of the first stream as soon as
    any action of the first stream matches, even one whose empty payload made
    the first stream return no query; only when nothing in the first stream
    matches is it the query of the second. *)
Theorem process_stream_app
        {Sink : Type} (log : level -> log_msg -> Sink -> Sink) (sink : Sink)
        (chunks1 chunks2 : list pyval) :
  forallb well_shaped chunks1 = true ->
  forallb well_shaped chunks2 = true ->
  exists full1 sql1 full2 sql2,
    fst (process_stream log chunks1 sink) = Ok (full1, sql1)
    /\ fst (process_stream log chunks2 sink) = Ok (full2, sql2)
    /\ fst (process_stream log (chunks1 ++ chunks2) sink)
       = Ok (full1 ++ full2, if has_match chunks1 then sql1 else sql2).
Proof.
  intros H1 H2.
  assert (H12 : forallb well_shaped (chunks1 ++ chunks2) = true).
  { rewrite forallb_app. now rewrite H1, H2. }
  rewrite !process_stream_well_shaped by assumption.
  do 4 eexists. split; [reflexivity|]. split; [reflexivity|].
  unfold concat_outputs, stream_actions, has_match.
  rewrite map_app, join_app, flat_map_app, first_some_app.
  unfold stream_actions.
  now destruct (first_some payload (flat_map chunk_actions chunks1)).
Qed.

Lemma process_stream_app_witness :
  exists full1 sql1 full2 sql2,
    fst (process_stream no_log empty_query tt) = Ok (full1, sql1)
    /\ fst (process_stream no_log two_queries tt) = Ok (full2, sql2)
    /\ fst (process_stream no_log (empty_query ++ two_queries) tt)
       = Ok (full1 ++ full2, if has_match empty_query then sql1 else sql2).
Proof.
  apply (process_stream_app no_log tt empty_query two_queries); reflexivity.
Defined.

(** ** The loop over the actions stops at the first capture only *)

(** X6: while the flag is down, the loop over a chunk's actions stops at the
    first match and never looks at the actions after it; once the flag is up
    the loop visits every action.  So a chunk whose first action matches and
    whose second is null is accepted the first time, and the very same chunk
    ends the stream in a TypeError once a query has been found. *)
Theorem later_actions_seen_only_after_capture
        {Sink : Type} (log : level -> log_msg -> Sink -> Sink) (sink : Sink)
        (tool p : string) (rest : list pyval) :
  Str.contains marker tool = true ->
  Str.re_search tool = Some p ->
  let chunk := PDict [("actions", PList (action_of tool :: PNone :: rest))] in
  fst (gen_body log false chunk sink)
  = Ok (mk_yielded (PStr "") (Some (Str.unescape p)), true)
  /\ fst (gen_body log true chunk sink) = Raise TypeError
  /\ fst (process_stream log [chunk] sink) = Ok ("", kept (Some (Str.unescape p)))
  /\ fst (process_stream log [chunk; chunk] sink) = Raise TypeError.
Proof.
  intros Hm Hp chunk.
  assert (Hopen : scan_actions false (action_of tool :: PNone :: rest)
                  = Ok (Some (Str.unescape p))).
  { cbn. rewrite Hm. cbn. now rewrite Hp. }
  assert (Hshut : scan_actions true (action_of tool :: PNone :: rest)
                  = Raise TypeError).
  { cbn. rewrite Hm. cbn. now rewrite Hp. }
  assert (G1 : fst (gen_body no_log false chunk tt)
               = Ok (mk_yielded (PStr "") (Some (Str.unescape p)), true)).
  { unfold gen_body, chunk. cbn [fst Py.dict_get String.eqb Ascii.eqb Bool.eqb].
    cbn [Py.truthy Py.iter bind]. now rewrite Hopen. }
  assert (G2 : fst (gen_body no_log true chunk tt) = Raise TypeError).
  { unfold gen_body, chunk. cbn [fst Py.dict_get String.eqb Ascii.eqb Bool.eqb].
    cbn [Py.truthy Py.iter bind]. now rewrite Hshut. }
  repeat split.
  - now rewrite gen_body_fst.
  - now rewrite gen_body_fst.
  - rewrite process_stream_fst.
    now rewrite (process_loop_step _ _ _ _ _ _ _ _ _ G1 (consume_text _ _ _ _)).
  - rewrite process_stream_fst.
    rewrite (process_loop_step _ _ _ _ _ _ _ _ _ G1 (consume_text _ _ _ _)).
    now apply process_loop_gen_raise.
Qed.

Lemma later_actions_seen_only_after_capture_witness :
  let chunk :=
    PDict [("actions", PList [action_of (sql_tool "SELECT 1"); PNone])] in
  fst (gen_body no_log false chunk tt)
  = Ok (mk_yielded (PStr "") (Some (Str.unescape "SELECT 1")), true)
  /\ fst (gen_body no_log true chunk tt) = Raise TypeError
  /\ fst (process_stream no_log [chunk] tt)
     = Ok ("", kept (Some (Str.unescape "SELECT 1")))
  /\ fst (process_stream no_log [chunk; chunk] tt) = Raise TypeError.
Proof.
  exact (later_actions_seen_only_after_capture no_log tt (sql_tool "SELECT 1")
           "SELECT 1" [] eq_refl eq_refl).
Defined.
(** ** The pattern search, both ways *)

Lemma strip_prefix_app (lit r : string) : Str.strip_prefix lit (lit ++ r) = Some r.
Proof.
  induction lit as [|a lit IH]; cbn; [reflexivity|].
  now rewrite Ascii.eqb_refl.
Qed.

Lemma mem_false_cons (c a : ascii) (s : string) :
  Str.mem c (String a s) = false -> Ascii.eqb a c = false /\ Str.mem c s = false.
Proof.
  cbn [Str.mem]. intros H. apply orb_false_iff in H.
  now rewrite Ascii.eqb_sym.
Qed.

Lemma lazy_group_app (p post : string) :
  Str.mem Str.dquote p = false ->
  Str.mem Str.newline p = false ->
  Str.lazy_group (p ++ String Str.dquote post) = Some p.
Proof.
  induction p as [|c p IH]; intros Hq Hn; [reflexivity|].
  apply mem_false_cons in Hq, Hn. destruct Hq as [Hq Hq'], Hn as [Hn Hn'].
  cbn [String.append Str.lazy_group]. rewrite Hq, Hn, (IH Hq' Hn'). reflexivity.
Qed.

Lemma lazy_group_newline (a b : string) :
  Str.mem Str.dquote a = false ->
  Str.lazy_group (a ++ String Str.newline b) = None.
Proof.
  induction a as [|c a IH]; intros Hq; [reflexivity|].
  apply mem_false_cons in Hq. destruct Hq as [Hq Hq'].
  cbn [String.append Str.lazy_group]. rewrite Hq, (IH Hq').
  now destruct (Ascii.eqb c Str.newline).
Qed.

Lemma lazy_group_no_quote (a : string) :
  Str.mem Str.dquote a = false -> Str.lazy_group a = None.
Proof.
  induction a as [|c a IH]; intros Hq; [reflexivity|].
  apply mem_false_cons in Hq. destruct Hq as [Hq Hq'].
  cbn [Str.lazy_group]. rewrite Hq, (IH Hq').
  now destruct (Ascii.eqb c Str.newline).
Qed.

Lemma match_here_complete (p post : string) :
  Str.mem Str.dquote p = false ->
  Str.mem Str.newline p = false ->
  Str.match_here (Str.tool_input_lit ++ p ++ String Str.dquote post) = Some p.
Proof.
  intros Hq Hn. unfold Str.match_here.
  rewrite strip_prefix_app. now apply lazy_group_app.
Qed.

Lemma re_search_here (s p : string) :
  Str.match_here s = Some p -> Str.re_search s = Some p.
Proof. intros H. destruct s; cbn [Str.re_search]; now rewrite H. Qed.

Lemma re_search_skip (c : ascii) (s : string) :
  Str.match_here (String c s) = None ->
  Str.re_search (String c s) = Str.re_search s.
Proof. intros H. cbn [Str.re_search]. now rewrite H. Qed.

Lemma re_search_complete (pre rest p : string) :
  Str.match_here rest = Some p ->
  (forall a b, pre = a ++ b -> b <> "" -> Str.match_here (b ++ rest) = None) ->
  Str.re_search (pre ++ rest) = Some p.
Proof.
  intros Hm. induction pre as [|c pre IH]; intros Hleft.
  - now apply re_search_here.
  - cbn [String.append]. rewrite re_search_skip.
    + apply IH. intros a b -> Hb. now apply (Hleft (String c a) b).
    + apply (Hleft "" (String c pre)); [reflexivity | discriminate].
Qed.

Lemma re_search_none (s : string) :
  Str.re_search s = None <->
  (forall pre rest, s = pre ++ rest -> Str.match_here rest = None).
Proof.
  split.
  - intros H pre. revert s H.
    induction pre as [|c pre IH]; intros s H rest ->.
    + cbn [String.append] in H.
      destruct rest; cbn [Str.re_search] in H;
        now destruct (Str.match_here _).
    + cbn [String.append Str.re_search] in H.
      destruct (Str.match_here (String c (pre ++ rest))); [discriminate|].
      now apply (IH (pre ++ rest) H).
  - induction s as [|c s IH]; intros H.
    + reflexivity.
    + rewrite re_search_skip; [|now apply (H "")].
      apply IH. intros pre rest ->. now apply (H (String c pre)).
Qed.

(** X7: the search finds [p] exactly when the string splits, at the leftmost
    place where the pattern matches, into a prefix, the literal, [p] free of
    double quotes and line breaks, and a double quote; and it finds nothing
    exactly when the pattern matches at no place of the string. *)
Theorem re_search_characterised (s : string) :
  (forall p,
      Str.re_search s = Some p <->
      exists pre post,
        s = pre ++ Str.tool_input_lit ++ p ++ String Str.dquote post
        /\ Str.mem Str.dquote p = false
        /\ Str.mem Str.newline p = false
        /\ (forall a b, pre = a ++ b -> b <> "" ->
                        Str.match_here
                          (b ++ Str.tool_input_lit ++ p ++ String Str.dquote post)
                        = None))
  /\ (Str.re_search s = None <->
      forall pre rest, s = pre ++ rest -> Str.match_here rest = None).
Proof.
  split; [|apply re_search_none].
  intros p. split.
  - intros H.
    destruct (re_search_leftmost s p H) as (pre & rest & -> & Hm & Hleft).
    destruct (match_here_spec rest p Hm) as (post & -> & Hq & Hn).
    exists pre, post. auto.
  - intros (pre & post & -> & Hq & Hn & Hleft).
    apply re_search_complete; [|assumption].
    now apply match_here_complete.
Qed.

(** ** Queries in the usual tool string *)

Lemma quote_ends (a b y : string) :
  Str.mem Str.dquote a = false ->
  a ++ String Str.dquote "" = b ++ String Str.dquote y -> y = "".
Proof.
  revert b. induction a as [|c a IH]; intros b Hq H.
  - destruct b as [|c' b]; cbn in H; [now injection H|].
    injection H as _ H. destruct b; discriminate.
  - apply mem_false_cons in Hq. destruct Hq as [Hq Hq'].
    destruct b as [|c' b]; cbn [String.append] in H.
    + injection H as -> _. now rewrite Ascii.eqb_refl in Hq.
    + injection H as _ H. now apply (IH b).
Qed.

Lemma match_here_tail (s : string) :
  Str.mem Str.dquote s = false ->
  Str.match_here (s ++ String Str.dquote "") = None.
Proof.
  intros Hq. unfold Str.match_here.
  destruct (Str.strip_prefix Str.tool_input_lit (s ++ String Str.dquote ""))
    as [r|] eqn:E; [|reflexivity].
  apply strip_prefix_spec in E.
  change (Str.tool_input_lit ++ r)
    with ("tool_input=" ++ String Str.dquote r) in E.
  now rewrite (quote_ends s "tool_input=" r Hq E).
Qed.

Lemma re_search_tail (s : string) :
  Str.mem Str.dquote s = false ->
  Str.re_search (s ++ String Str.dquote "") = None.
Proof.
  induction s as [|c s IH]; intros Hq; [reflexivity|].
  cbn [String.append]. rewrite re_search_skip.
  - apply IH. now apply mem_false_cons in Hq.
  - now apply (match_here_tail (String c s)).
Qed.

Lemma re_search_cons (c : ascii) (s : string) :
  Str.re_search (String c s)
  = match Str.match_here (String c s) with
    | Some p => Some p
    | None => Str.re_search s
    end.
Proof. reflexivity. Qed.

Lemma re_search_sql_tool (q : string) :
  Str.re_search (sql_tool q)
  = match Str.lazy_group (q ++ String Str.dquote "") with
    | Some p => Some p
    | None => Str.re_search (q ++ String Str.dquote "")
    end.
Proof.
  unfold sql_tool, quoted.
  cbn -[Str.lazy_group Str.re_search Str.match_here].
  do 13 (rewrite re_search_skip by reflexivity).
  rewrite re_search_cons.
  match goal with
  | |- match Str.match_here ?x with Some _ => _ | None => _ end
       = match ?l with Some _ => _ | None => _ end =>
      change (Str.match_here x) with l; destruct l; [reflexivity|]
  end.
  do 11 (rewrite re_search_skip by reflexivity).
  reflexivity.
Qed.

Lemma lazy_group_closed (q : string) :
  Str.mem Str.dquote q = false ->
  Str.lazy_group (q ++ String Str.dquote "")
  = if Str.mem Str.newline q then None else Some q.
Proof.
  induction q as [|c q IH]; intros Hq; [reflexivity|].
  apply mem_false_cons in Hq. destruct Hq as [Hq Hq'].
  cbn [String.append Str.lazy_group Str.mem].
  rewrite Hq, (IH Hq'), (Ascii.eqb_sym Str.newline c).
  destruct (Ascii.eqb c Str.newline); [reflexivity|].
  cbn [orb]. now destruct (Str.mem Str.newline q).
Qed.

Lemma process_stream_single
      {Sink : Type} (log : level -> log_msg -> Sink -> Sink) (sink : Sink)
      (out tool : string) :
  fst (process_stream log [chunk_of out [tool]] sink)
  = Ok (out, kept (option_map Str.unescape
                     (if Str.contains marker tool then Str.re_search tool
                      else None))).
Proof.
  rewrite process_stream_well_shaped by reflexivity.
  unfold concat_outputs. cbn [map join fold_right chunk_of chunk_output].
  cbn [Py.dict_get String.eqb Ascii.eqb Bool.eqb text_of].
  rewrite append_nil_r.
  change (first_some payload (stream_actions [chunk_of out [tool]]))
    with (match (if Str.contains marker tool then Str.re_search tool else None)
          with
          | Some b => Some b
          | None => None
          end).
  now destruct (Str.contains marker tool), (Str.re_search tool).
Qed.

Lemma lazy_group_broken (a rest : string) :
  Str.mem Str.dquote a = false ->
  Str.mem Str.newline a = true ->
  Str.lazy_group (a ++ rest) = None.
Proof.
  induction a as [|c a IH]; intros Hq Hn; [discriminate|].
  apply mem_false_cons in Hq. destruct Hq as [Hq Hq'].
  cbn [String.append Str.lazy_group]. rewrite Hq.
  cbn [Str.mem] in Hn. rewrite (Ascii.eqb_sym Str.newline c) in Hn.
  destruct (Ascii.eqb c Str.newline); [reflexivity|].
  cbn [orb] in Hn. now rewrite (IH Hq' Hn).
Qed.

(** X8: for the usual tool string, the marker followed by the quoted query.
    A query without double quotes, when it stands on one line, comes back
    with its escaped single quotes unescaped (and as None when it is empty),
    and is not captured at all when it holds a line break.  A query holding a
    double quote is cut at its first double quote when the text before that
    quote is on one line; when that text holds a line break the quoted
    argument is not captured and the search goes on inside the query itself,
    which for a query such as two lines ending in a quoted name finds
    nothing. *)
Theorem usual_tool_string
        {Sink : Type} (log : level -> log_msg -> Sink -> Sink) (sink : Sink)
        (out q : string) :
  (Str.mem Str.dquote q = false ->
   Str.re_search (sql_tool q)
   = (if Str.mem Str.newline q then None else Some q)
   /\ fst (process_stream log [chunk_of out [sql_tool q]] sink)
      = Ok (out, if Str.mem Str.newline q then None
                 else kept (Some (Str.unescape q))))
  /\ (forall a b,
         q = a ++ String Str.dquote b ->
         Str.mem Str.dquote a = false ->
         Str.mem Str.newline a = false ->
         Str.re_search (sql_tool q) = Some a
         /\ fst (process_stream log [chunk_of out [sql_tool q]] sink)
            = Ok (out, kept (Some (Str.unescape a))))
  /\ (forall a b,
         q = a ++ String Str.dquote b ->
         Str.mem Str.dquote a = false ->
         Str.mem Str.newline a = true ->
         Str.re_search (sql_tool q)
         = Str.re_search (q ++ String Str.dquote "")
         /\ fst (process_stream log [chunk_of out [sql_tool q]] sink)
            = Ok (out, kept (option_map Str.unescape
                               (Str.re_search (q ++ String Str.dquote ""))))).
Proof.
  assert (Hmark : Str.contains marker (sql_tool q) = true) by reflexivity.
  split; [|split].
  - intros Hq.
    assert (Hs : Str.re_search (sql_tool q)
                 = if Str.mem Str.newline q then None else Some q).
    { rewrite re_search_sql_tool, (lazy_group_closed q Hq).
      destruct (Str.mem Str.newline q); [|reflexivity].
      now apply re_search_tail. }
    split; [exact Hs|].
    rewrite process_stream_single, Hmark, Hs.
    now destruct (Str.mem Str.newline q).
  - intros a b -> Ha Hn.
    assert (Hs : Str.re_search (sql_tool (a ++ String Str.dquote b)) = Some a).
    { rewrite re_search_sql_tool, append_assoc. cbn [String.append].
      now rewrite (lazy_group_app a _ Ha Hn). }
    split; [exact Hs|].
    now rewrite process_stream_single, Hmark, Hs.
  - intros a b -> Ha Hn.
    assert (Hs : Str.re_search (sql_tool (a ++ String Str.dquote b))
                 = Str.re_search ((a ++ String Str.dquote b)
                                    ++ String Str.dquote "")).
    { rewrite re_search_sql_tool.
      rewrite (append_assoc a (String Str.dquote b) (String Str.dquote "")) at 1.
      now rewrite (lazy_group_broken a _ Ha Hn). }
    split; [exact Hs|].
    now rewrite process_stream_single, Hmark, Hs.
Qed.

Lemma usual_tool_string_witness :
  (Str.re_search (sql_tool two_lines) = None
   /\ fst (process_stream no_log [chunk_of "x" [sql_tool two_lines]] tt)
      = Ok ("x", None))
  /\ (Str.re_search (sql_tool ("SELECT " ++ quoted "a" ++ " FROM t"))
      = Some "SELECT "
      /\ fst (process_stream no_log
                [chunk_of "x" [sql_tool ("SELECT " ++ quoted "a" ++ " FROM t")]]
                tt)
         = Ok ("x", kept (Some (Str.unescape "SELECT "))))
  /\ fst (process_stream no_log
            [chunk_of "x" [sql_tool (two_lines ++ " " ++ quoted "t")]] tt)
     = Ok ("x", None).
Proof.
  split; [|split].
  - apply (proj1 (usual_tool_string no_log tt "x" two_lines)). reflexivity.
  - apply (proj1 (proj2 (usual_tool_string no_log tt "x"
                           ("SELECT " ++ quoted "a" ++ " FROM t")))
             "SELECT " ("a" ++ String Str.dquote " FROM t"));
      reflexivity.
  - exact (proj2 (proj2 (proj2 (usual_tool_string no_log tt "x"
                                  (two_lines ++ " " ++ quoted "t")))
                   (two_lines ++ " ") ("t" ++ String Str.dquote "")
                   eq_refl eq_refl eq_refl)).
Defined.

(** ** What the parser tells its logger *)

Lemma consume_keeps (y : yielded) (full : string) (x : string)
      (full' : string) (sql' : option string) :
  fst (consume no_log y full (Some x) tt) = Ok (full', sql') -> sql' = Some x.
Proof.
  unfold consume.
  destruct (Py.truthy (y_output y)); cbn [fst snd].
  - destruct (Py.str_iadd full (y_output y)); [discriminate|].
    destruct (y_sql_query y); now intros [= _ <-].
  - destruct (y_sql_query y); now intros [= _ <-].
Qed.

Lemma process_loop_keeps (chunks : list pyval) :
  forall found full x fr q,
    fst (process_loop no_log chunks found full (Some x) tt) = Ok (fr, q) ->
    q = Some x.
Proof.
  induction chunks as [|c cs IH]; intros found full x fr q H.
  - cbn in H. now injection H as _ <-.
  - cbn [process_loop] in H.
    destruct (gen_body no_log found c tt) as [[e|[y found']] []];
      [discriminate|].
    pose proof (consume_keeps y full x) as Hk.
    destruct (consume no_log y full (Some x) tt) as [[e|[full' sql']] []];
      [discriminate|].
    rewrite (Hk full' sql' eq_refl) in H. now apply IH in H.
Qed.

Lemma consume_trace (y : yielded) (full : string) (sql : option string)
      (tr : trace) :
  exists ev,
    snd (consume record_log y full sql tr) = (tr ++ ev)%list
    /\ filter is_closing_entry ev = []
    /\ filter is_chunk_entry ev = []
    /\ (forall full' sql',
           fst (consume record_log y full sql tr) = Ok (full', sql') ->
           filter is_extracted_entry ev
           = match sql, sql' with
             | None, Some s => [(INFO, LogExtracted s)]
             | _, _ => []
             end).
Proof.
  unfold consume, record_log.
  destruct (Py.truthy (y_output y)); cbn [fst snd].
  - destruct (Py.str_iadd full (y_output y)) as [e|full1].
    + exists [(INFO, LogOutput (y_output y))]. repeat split; discriminate.
    + destruct (y_sql_query y) as [q|], sql as [x|].
      * exists [(INFO, LogOutput (y_output y))]. repeat split;
          now intros ? ? [= _ <-].
      * destruct (Str.is_empty q); cbn [negb fst snd].
        -- exists [(INFO, LogOutput (y_output y))]. repeat split;
             now intros ? ? [= _ <-].
        -- exists [(INFO, LogOutput (y_output y)); (INFO, LogExtracted q)].
           rewrite <- app_assoc. repeat split; now intros ? ? [= _ <-].
      * exists [(INFO, LogOutput (y_output y))]. repeat split;
          now intros ? ? [= _ <-].
      * exists [(INFO, LogOutput (y_output y))]. repeat split;
          now intros ? ? [= _ <-].
  - destruct (y_sql_query y) as [q|], sql as [x|].
    + exists []. rewrite app_nil_r. repeat split; now intros ? ? [= _ <-].
    + destruct (Str.is_empty q); cbn [negb fst snd].
      * exists []. rewrite app_nil_r. repeat split; now intros ? ? [= _ <-].
      * exists [(INFO, LogExtracted q)]. repeat split; now intros ? ? [= _ <-].
    + exists []. rewrite app_nil_r. repeat split; now intros ? ? [= _ <-].
    + exists []. rewrite app_nil_r. repeat split; now intros ? ? [= _ <-].
Qed.

Lemma process_loop_trace (chunks : list pyval) :
  forall found full sql (tr : trace),
  exists body,
    snd (process_loop record_log chunks found full sql tr) = (tr ++ body)%list
    /\ filter is_closing_entry body = []
    /\ (forall fr q,
           fst (process_loop record_log chunks found full sql tr) = Ok (fr, q) ->
           filter is_chunk_entry body
           = map (fun c => (DEBUG, LogChunk c)) chunks
           /\ filter is_extracted_entry body
              = match sql, q with
                | None, Some s => [(INFO, LogExtracted s)]
                | _, _ => []
                end).
Proof.
  induction chunks as [|c cs IH]; intros found full sql tr.
  - exists []. cbn. rewrite app_nil_r. repeat split.
    injection H as _ <-. now destruct sql.
  - cbn [process_loop].
    change (gen_body record_log found c tr)
      with (fst (gen_body no_log found c tt), (tr ++ [(DEBUG, LogChunk c)])%list).
    destruct (fst (gen_body no_log found c tt)) as [e|[y found']].
    + exists [(DEBUG, LogChunk c)]. repeat split; discriminate.
    + destruct (consume_trace y full sql (tr ++ [(DEBUG, LogChunk c)])%list)
        as (ev & Hev & Hclose & Hchunk & Hextr).
      pose proof (consume_fst record_log y full sql
                    (tr ++ [(DEBUG, LogChunk c)])%list) as Hfst.
      destruct (consume record_log y full sql (tr ++ [(DEBUG, LogChunk c)])%list)
        as [r tr1].
      cbn [fst snd] in Hev, Hextr, Hfst. subst tr1.
      destruct r as [e|[full1 sql1]].
      * exists ((DEBUG, LogChunk c) :: ev). rewrite <- app_assoc.
        cbn [app filter is_closing_entry fst snd].
        split; [reflexivity | split; [exact Hclose | discriminate]].
      * specialize (Hextr full1 sql1 eq_refl).
        destruct (IH found' full1 sql1 ((tr ++ [(DEBUG, LogChunk c)]) ++ ev)%list)
          as (body & Hbody & Hbclose & Hres).
        exists ((DEBUG, LogChunk c) :: ev ++ body)%list.
        split; [rewrite Hbody, <- !app_assoc; reflexivity|].
        split.
        { cbn [filter is_closing_entry]. now rewrite filter_app, Hclose, Hbclose. }
        intros fr q Hq. destruct (Hres fr q Hq) as [Hc He].
        cbn [filter is_chunk_entry is_extracted_entry map].
        rewrite !filter_app, Hchunk, Hc, Hextr, He. cbn [app].
        split; [reflexivity|].
        rewrite process_loop_fst in Hq.
        destruct sql as [x|].
        -- symmetry in Hfst. apply consume_keeps in Hfst. subst sql1.
           reflexivity.
        -- destruct sql1 as [s|]; [|reflexivity].
           apply process_loop_keeps in Hq. now subst q.
Qed.

(** X9: the calls [process_stream] makes to its logger.  When it returns, the
    log opens with the start line, closes with the full response and the
    final query it returns, logs every chunk once at DEBUG, in order, and
    logs an extracted query exactly once when it returns one and never when
    it returns none.  When it raises, the two closing lines are never
    logged. *)
Theorem logged_calls (chunks : list pyval) :
  (forall full_response sql_query,
      fst (process_stream record_log chunks []) = Ok (full_response, sql_query) ->
      exists body,
        snd (process_stream record_log chunks [])
        = ((INFO, LogStart) :: body
             ++ [(INFO, LogFull full_response); (INFO, LogFinal sql_query)])%list
        /\ filter is_closing_entry body = []
        /\ filter is_chunk_entry body
           = map (fun c => (DEBUG, LogChunk c)) chunks
        /\ filter is_extracted_entry body
           = match sql_query with
             | Some s => [(INFO, LogExtracted s)]
             | None => []
             end)
  /\ (forall e,
         fst (process_stream record_log chunks []) = Raise e ->
         filter is_closing_entry (snd (process_stream record_log chunks [])) = []).
Proof.
  unfold process_stream.
  destruct (process_loop_trace chunks false "" None
              (record_log INFO LogStart []))
    as (body & Hbody & Hclose & Hres).
  destruct (process_loop record_log chunks false "" None
              (record_log INFO LogStart [])) as [r tr].
  cbn [fst snd] in Hbody, Hres. subst tr.
  destruct r as [e|[fr q]]; cbn [fst snd]; split; try discriminate.
  - intros e' _. cbn [record_log app filter is_closing_entry]. exact Hclose.
  - intros fr' q' [= <- <-]. exists body.
    destruct (Hres fr q eq_refl) as [Hc He].
    split; [|auto].
    unfold record_log. cbn [app]. now rewrite <- !app_assoc.
Qed.

Lemma logged_calls_witness :
  exists body,
    snd (process_stream record_log scenario [])
    = ((INFO, LogStart) :: body
         ++ [(INFO, LogFull "Thinking...Done");
             (INFO, LogFinal (Some "SELECT * FROM t"))])%list
    /\ filter is_closing_entry body = []
    /\ filter is_chunk_entry body = map (fun c => (DEBUG, LogChunk c)) scenario
    /\ filter is_extracted_entry body = [(INFO, LogExtracted "SELECT * FROM t")].
Proof.
  apply (proj1 (logged_calls scenario) "Thinking...Done" (Some "SELECT * FROM t")).
  reflexivity.
Defined.


(** ** Any logger sees the same calls *)

Lemma consume_replay {Sink : Type} (log : level -> log_msg -> Sink -> Sink)
      (y : yielded) (full : string) (sql : option string) (sink : Sink)
      (tr : trace) :
  exists ev,
    snd (consume record_log y full sql tr) = (tr ++ ev)%list
    /\ snd (consume log y full sql sink) = replay log ev sink.
Proof.
  unfold consume, record_log, replay.
  destruct (Py.truthy (y_output y)); cbn [fst snd].
  - destruct (Py.str_iadd full (y_output y)) as [e|full1].
    + now exists [(INFO, LogOutput (y_output y))].
    + destruct (y_sql_query y) as [q|], sql as [x|];
        try (now exists [(INFO, LogOutput (y_output y))]).
      destruct (Str.is_empty q); cbn [negb fst snd].
      * now exists [(INFO, LogOutput (y_output y))].
      * exists [(INFO, LogOutput (y_output y)); (INFO, LogExtracted q)].
        now rewrite <- app_assoc.
  - destruct (y_sql_query y) as [q|], sql as [x|];
      try (exists []; now rewrite app_nil_r).
    destruct (Str.is_empty q); cbn [negb fst snd].
    + exists []. now rewrite app_nil_r.
    + now exists [(INFO, LogExtracted q)].
Qed.

Lemma replay_app {Sink : Type} (log : level -> log_msg -> Sink -> Sink)
      (a b : trace) (sink : Sink) :
  replay log (a ++ b)%list sink = replay log b (replay log a sink).
Proof. unfold replay. apply fold_left_app. Qed.

Lemma process_loop_replay {Sink : Type} (log : level -> log_msg -> Sink -> Sink)
      (chunks : list pyval) :
  forall found full sql (sink : Sink) (tr : trace),
  exists body,
    snd (process_loop record_log chunks found full sql tr) = (tr ++ body)%list
    /\ snd (process_loop log chunks found full sql sink) = replay log body sink.
Proof.
  induction chunks as [|c cs IH]; intros found full sql sink tr.
  - exists []. cbn. now rewrite app_nil_r.
  - cbn [process_loop].
    change (gen_body record_log found c tr)
      with (fst (gen_body no_log found c tt), (tr ++ [(DEBUG, LogChunk c)])%list).
    change (gen_body log found c sink)
      with (fst (gen_body no_log found c tt), log DEBUG (LogChunk c) sink).
    destruct (fst (gen_body no_log found c tt)) as [e|[y found']].
    + now exists [(DEBUG, LogChunk c)].
    + destruct (consume_replay log y full sql (log DEBUG (LogChunk c) sink)
                  (tr ++ [(DEBUG, LogChunk c)])%list) as (ev & Hrec & Hlog).
      pose proof (consume_fst record_log y full sql
                    (tr ++ [(DEBUG, LogChunk c)])%list) as Hf1.
      pose proof (consume_fst log y full sql (log DEBUG (LogChunk c) sink))
        as Hf2.
      destruct (consume record_log y full sql (tr ++ [(DEBUG, LogChunk c)])%list)
        as [r1 tr1].
      destruct (consume log y full sql (log DEBUG (LogChunk c) sink))
        as [r2 s2].
      cbn [fst snd] in *. subst tr1 s2. rewrite <- Hf2 in Hf1. subst r2.
      destruct r1 as [e|[full1 sql1]].
      * exists ((DEBUG, LogChunk c) :: ev). split.
        -- now rewrite <- app_assoc.
        -- reflexivity.
      * destruct (IH found' full1 sql1
                    (replay log ev (log DEBUG (LogChunk c) sink))
                    ((tr ++ [(DEBUG, LogChunk c)]) ++ ev)%list)
          as (body & Hb1 & Hb2).
        exists ((DEBUG, LogChunk c) :: ev ++ body)%list. split.
        -- rewrite Hb1. now rewrite <- !app_assoc.
        -- rewrite Hb2. change ((DEBUG, LogChunk c) :: ev ++ body)%list
             with ([(DEBUG, LogChunk c)] ++ ev ++ body)%list.
           now rewrite !replay_app.
Qed.

(** The logger is an observer only: under any logger, the state it is left in
    by [process_stream] is the state reached by handing it, one by one and in
    order, the calls a recording logger sees on the same stream. *)
Lemma logger_state_is_replay
        {Sink : Type} (log : level -> log_msg -> Sink -> Sink) (sink : Sink)
        (chunks : list pyval) :
  snd (process_stream log chunks sink) = replay log (calls_of chunks) sink.
Proof.
  unfold calls_of, process_stream.
  destruct (process_loop_replay log chunks false "" None
              (log INFO LogStart sink) (record_log INFO LogStart []))
    as (body & Hrec & Hlog).
  pose proof (process_loop_fst record_log chunks false "" None
                (record_log INFO LogStart [])) as Hf1.
  pose proof (process_loop_fst log chunks false "" None
                (log INFO LogStart sink)) as Hf2.
  destruct (process_loop record_log chunks false "" None
              (record_log INFO LogStart [])) as [r1 tr1].
  destruct (process_loop log chunks false "" None (log INFO LogStart sink))
    as [r2 s2].
  cbn [fst snd] in *. subst tr1 s2. rewrite <- Hf2 in Hf1. subst r2.
  destruct r1 as [e|[full sql]]; cbn [snd].
  - reflexivity.
  - unfold record_log, replay. cbn [app fold_left].
    rewrite <- app_assoc, fold_left_app. reflexivity.
Qed.

(** ** The shared module logger *)

Lemma last_default {A : Type} (x : A) (l : list A) (d1 d2 : A) :
  last (x :: l) d1 = last (x :: l) d2.
Proof.
  revert x. induction l as [|y l IH]; intros x; [reflexivity|].
  change (last (y :: l) d1 = last (y :: l) d2). apply IH.
Qed.

Lemma construct_all_spec (levels : list Z) :
  forall lg,
    lg_handlers (construct_all levels lg) = (lg_handlers lg ++ levels)%list
    /\ lg_written (construct_all levels lg) = lg_written lg
    /\ lg_level (construct_all levels lg) = last levels (lg_level lg).
Proof.
  unfold construct_all.
  induction levels as [|l ls IH]; intros lg; cbn [fold_left].
  - now rewrite app_nil_r.
  - destruct (IH (parser_init l lg)) as (Hh & Hw & Hl).
    rewrite Hh, Hw, Hl. cbn [parser_init lg_handlers lg_written lg_level].
    rewrite <- app_assoc.
    split; [reflexivity | split; [reflexivity|]].
    destruct ls as [|z ls]; [reflexivity|].
    change (last (l :: z :: ls) (lg_level lg))
      with (last (z :: ls) (lg_level lg)).
    apply last_default.
Qed.

Lemma replay_logger (inherited : Z) (ancestors : list Z) (calls : trace) :
  forall lg,
    lg_level (replay (logger_call inherited ancestors) calls lg) = lg_level lg
    /\ lg_handlers (replay (logger_call inherited ancestors) calls lg)
       = lg_handlers lg
    /\ lg_written (replay (logger_call inherited ancestors) calls lg)
       = (lg_written lg
            ++ flat_map
                 (fun e => lines_of_call inherited ancestors lg (fst e) (snd e))
                 calls)%list.
Proof.
  unfold replay.
  induction calls as [|[l m] calls IH]; intros lg; cbn [fold_left flat_map].
  - now rewrite app_nil_r.
  - destruct (IH (logger_call inherited ancestors l m lg)) as (Hl & Hh & Hw).
    split; [exact Hl | split; [exact Hh|]].
    etransitivity; [exact Hw|].
    cbn [logger_call lg_written fst snd]. now rewrite <- app_assoc.
Qed.

Lemma map_const_repeat {A B : Type} (e : B) (l : list A) :
  map (fun _ => e) l = repeat e (length l).
Proof.
  induction l as [|x l IH]; [reflexivity|].
  cbn [map length repeat]. now rewrite IH.
Qed.

Lemma filter_repeat_default (k : nat) :
  filter (fun h => Z.leb h 20) (repeat 20%Z k) = repeat 20%Z k.
Proof.
  induction k as [|k IH]; [reflexivity|].
  cbn [repeat filter]. change (Z.leb 20 20) with true. cbv iota.
  now rewrite IH.
Qed.



(** * The collections of skills and agents *)

(** ** Requests and their log *)

Section RemoteFacts.

Context {St : Type} (server : api_call -> St -> outcome pyval * St).

Lemma request_run (c : api_call) (w : world St) :
  request server c w
  = (fst (server c (fst w)),
     (snd (server c (fst w)), (snd w ++ [(c, fst (server c (fst w)))])%list)).
Proof. unfold request. now destruct (server c (fst w)). Qed.

Lemma lift_run {A : Type} (r : result A) (w : world St) :
  lift r w = (match r with Raise e => Fail (Builtin e) | Ok a => Done a end, w).
Proof. now destruct r. Qed.

Lemma Skills_get_run (project : string) (name : pyval) (w : world St) :
  Skills_get server project name w
  = (match fst (server (ApiSkill project name) (fst w)) with
     | Fail e => Fail e
     | Done data => match Skill_from_json data with
                    | Raise e => Fail (Builtin e)
                    | Ok sk => Done sk
                    end
     end,
     (snd (server (ApiSkill project name) (fst w)),
      (snd w ++ [(ApiSkill project name,
                  fst (server (ApiSkill project name) (fst w)))])%list)).
Proof.
  unfold Skills_get, api_bind. rewrite request_run.
  destruct (fst (server (ApiSkill project name) (fst w))); [reflexivity|].
  now rewrite lift_run.
Qed.

Lemma Skills_create_run (project : string) (name type params : pyval)
      (w : world St) :
  let c := ApiCreateSkill project name type params in
  Skills_create server project name type params w
  = (match fst (server c (fst w)) with
     | Fail e => Fail e
     | Done _ =>
         if Py.is_str "sql" type
         then match Py.getitem params "tables", Py.getitem params "database" with
              | Ok t, Ok d => Done (SQLSkill_init name t d)
              | Raise e, _ => Fail (Builtin e)
              | Ok _, Raise e => Fail (Builtin e)
              end
         else Done (Skill_init name type params)
     end,
     (snd (server c (fst w)), (snd w ++ [(c, fst (server c (fst w)))])%list)).
Proof.
  intros c. unfold Skills_create, api_bind. fold c. rewrite request_run.
  destruct (fst (server c (fst w))); [reflexivity|].
  destruct (Py.is_str "sql" type); [|reflexivity].
  rewrite lift_run.
  destruct (Py.getitem params "tables"); [reflexivity|].
  rewrite lift_run.
  now destruct (Py.getitem params "database").
Qed.

Lemma api_bind_fail {A B : Type} (c : Api St A) (k : A -> Api St B)
      (w w1 : world St) (e : error) :
  c w = (Fail e, w1) -> api_bind c k w = (Fail e, w1).
Proof. unfold api_bind. now intros ->. Qed.

Lemma api_bind_done {A B : Type} (c : Api St A) (k : A -> Api St B)
      (w w1 : world St) (a : A) :
  c w = (Done a, w1) -> api_bind c k w = k a w1.
Proof. unfold api_bind. now intros ->. Qed.

End RemoteFacts.

(** X11: [Skills.create] sends its request before it looks at [params].  When
    the server accepts a skill of type sql, the call still fails, with a
    KeyError or a TypeError, unless [params] is a dict holding both
    ['tables'] and ['database'], and in either case the server is left in the
    state after the creation; when it succeeds, the skill returned keeps of
    [params] these two entries and nothing else. *)
Theorem skills_create_sql
        {St : Type} (server : api_call -> St -> outcome pyval * St)
        (project : string) (name params answer : pyval) (st' : St)
        (w : world St) :
  server (ApiCreateSkill project name (PStr "sql") params) (fst w)
  = (Done answer, st') ->
  let run := Skills_create server project name (PStr "sql") params w in
  snd run
  = (st', (snd w ++ [(ApiCreateSkill project name (PStr "sql") params,
                      Done answer)])%list)
  /\ ((exists sk, fst run = Done sk) <->
      (exists d t database,
          params = PDict d
          /\ Py.dict_get "tables" d = Some t
          /\ Py.dict_get "database" d = Some database))
  /\ (forall sk, fst run = Done sk ->
                 exists t database,
                   Py.getitem params "tables" = Ok t
                   /\ Py.getitem params "database" = Ok database
                   /\ sk = mk_Skill name (PStr "sql")
                                    (PDict [("database", database);
                                            ("tables", t)]))
  /\ (forall e, fst run = Fail e ->
                e = Builtin KeyError \/ e = Builtin TypeError).
Proof.
  intros Hs run. subst run. rewrite Skills_create_run, Hs.
  cbn [fst snd Py.is_str String.eqb Ascii.eqb Bool.eqb].
  split; [reflexivity|].
  destruct params as [| | | | |d];
    try (cbn [Py.getitem]; repeat split;
         [ intros [sk H]; discriminate
         | intros (d & t & db & H & _); discriminate
         | discriminate
         | intros e [= <-]; now right ]).
  cbn [Py.getitem].
  destruct (Py.dict_get "tables" d) as [t|] eqn:Et.
  - destruct (Py.dict_get "database" d) as [db|] eqn:Ed.
    + repeat split.
      * intros _. exists d, t, db. auto.
      * intros _. eauto.
      * intros sk [= <-]. exists t, db. auto.
      * discriminate.
    + repeat split.
      * intros [sk H]; discriminate.
      * intros (d' & t' & db' & [= <-] & _ & H). congruence.
      * discriminate.
      * intros e [= <-]. now left.
  - repeat split.
    * intros [sk H]; discriminate.
    * intros (d' & t' & db' & [= <-] & H & _). congruence.
    * discriminate.
    * intros e [= <-]. now left.
Qed.

Lemma skills_create_sql_witness :
  let run := Skills_create demo_server "p" (PStr "s") (PStr "sql")
                           (PDict [("tables", PList [])]) ([], []) in
  snd run
  = ([PStr "s"],
     [(ApiCreateSkill "p" (PStr "s") (PStr "sql") (PDict [("tables", PList [])]),
       Done PNone)])
  /\ fst run = Fail (Builtin KeyError).
Proof.
  pose proof (skills_create_sql demo_server "p" (PStr "s")
                (PDict [("tables", PList [])]) PNone [PStr "s"] ([], [])
                eq_refl) as H.
  split; [exact (proj1 H) | reflexivity].
Defined.

(** ** [Agents.create] *)

Lemma served_snoc
      {St : Type} (server : api_call -> St -> outcome pyval * St)
      (new : list (api_call * outcome pyval)) (c : api_call) :
  forall st st1 : St,
    served server st new st1 ->
    served server st (new ++ [(c, fst (server c st1))])%list
           (snd (server c st1)).
Proof.
  induction new as [|x new IH]; intros st st1 H; cbn [served app] in *.
  - subst st1. cbn [fst snd]. auto.
  - destruct H as [Hx H]. split; [exact Hx|]. now apply IH.
Qed.

Lemma step_result_lookup
      {St : Type} (server : api_call -> St -> outcome pyval * St)
      (skills_project s : string) (w : world St) :
  match fst (Skills_get server skills_project (PStr s) w) with
  | Fail e =>
      step_result (ByName s)
                  (fst (server (ApiSkill skills_project (PStr s)) (fst w)))
      = Fail e
  | Done _ =>
      step_result (ByName s)
                  (fst (server (ApiSkill skills_project (PStr s)) (fst w)))
      = Done tt
  end.
Proof.
  rewrite Skills_get_run. unfold step_result. cbn [fst].
  destruct (fst (server (ApiSkill skills_project (PStr s)) (fst w)))
    as [e|data]; [reflexivity|].
  now destruct (Skill_from_json data).
Qed.

Lemma step_result_creation
      {St : Type} (server : api_call -> St -> outcome pyval * St)
      (skills_project : string) (sk : Skill) (w : world St) :
  match fst (Skills_create server skills_project (skill_name sk)
                           (skill_type sk) (skill_params sk) w) with
  | Fail e =>
      step_result (ByObject sk)
                  (fst (server (skill_request skills_project (ByObject sk))
                               (fst w)))
      = Fail e
  | Done _ =>
      step_result (ByObject sk)
                  (fst (server (skill_request skills_project (ByObject sk))
                               (fst w)))
      = Done tt
  end.
Proof.
  rewrite Skills_create_run. unfold step_result. cbn [fst skill_request].
  destruct (fst (server (ApiCreateSkill skills_project (skill_name sk)
                                        (skill_type sk) (skill_params sk))
                        (fst w))) as [e|data]; [reflexivity|].
  destruct (Py.is_str "sql" (skill_type sk)); [|reflexivity].
  destruct (Py.getitem (skill_params sk) "tables"); [reflexivity|].
  now destruct (Py.getitem (skill_params sk) "database").
Qed.

Lemma create_skill_names_served
      {St : Type} (server : api_call -> St -> outcome pyval * St)
      (skills_project : string) (skills : list skill_ref) :
  forall w : world St,
  exists new,
    snd (snd (create_skill_names server skills_project skills w))
    = (snd w ++ new)%list
    /\ served server (fst w) new
              (fst (snd (create_skill_names server skills_project skills w)))
    /\ ((Forall2 (entry_ok skills_project) skills new
         /\ fst (create_skill_names server skills_project skills w)
            = Done (map ref_name skills))
        \/ (exists done r rest entries resp e,
               skills = (done ++ r :: rest)%list
               /\ Forall2 (entry_ok skills_project) done entries
               /\ new = (entries ++ [(skill_request skills_project r, resp)])%list
               /\ step_result r resp = Fail e
               /\ fst (create_skill_names server skills_project skills w)
                  = Fail e)).
Proof.
  induction skills as [|s rest IH]; intros w.
  - exists []. cbn. rewrite app_nil_r.
    split; [reflexivity | split; [reflexivity|]]. left. split; constructor.
  - set (c := skill_request skills_project s).
    set (resp := fst (server c (fst w))).
    set (st1 := snd (server c (fst w))).
    set (w1 := (st1, (snd w ++ [(c, resp)])%list)).
    assert (Hstep : forall (step : Api St Skill),
               snd (step w) = w1 ->
               match fst (step w) with
               | Fail e => step_result s resp = Fail e
               | Done _ => step_result s resp = Done tt
               end ->
               let run :=
                 api_bind step (fun _ =>
                   api_bind (create_skill_names server skills_project rest)
                            (fun names => api_ret (ref_name s :: names))) w in
               exists new,
                 snd (snd run) = (snd w ++ new)%list
                 /\ served server (fst w) new (fst (snd run))
                 /\ ((Forall2 (entry_ok skills_project) (s :: rest) new
                      /\ fst run = Done (map ref_name (s :: rest)))
                     \/ (exists done r rest' entries resp' e,
                            (s :: rest) = (done ++ r :: rest')%list
                            /\ Forall2 (entry_ok skills_project) done entries
                            /\ new = (entries
                                        ++ [(skill_request skills_project r,
                                             resp')])%list
                            /\ step_result r resp' = Fail e
                            /\ fst run = Fail e))).
    { intros step Hw1 Hres run. subst run.
      destruct (step w) as [[e|sk] w'] eqn:Estep; cbn [fst snd] in Hw1, Hres;
        subst w'.
      - rewrite (api_bind_fail _ _ _ _ _ Estep).
        exists [(c, resp)]. cbn [fst snd served].
        split; [reflexivity|]. split; [now split|].
        right. exists [], s, rest, [], resp, e.
        repeat (split; [first [reflexivity | constructor | exact Hres]|]).
        reflexivity.
      - rewrite (api_bind_done _ _ _ _ _ Estep).
        destruct (IH w1) as (new & Hnew & Hserved & Hcases).
        destruct (create_skill_names server skills_project rest w1)
          as [[e|names] w2] eqn:Erest; cbn [fst snd] in Hnew, Hserved, Hcases.
        + rewrite (api_bind_fail _ _ _ _ _ Erest). cbn [fst snd].
          exists ((c, resp) :: new).
          split; [rewrite Hnew; unfold w1; cbn [snd];
                  now rewrite <- app_assoc|].
          split; [cbn [served fst snd]; split; [reflexivity | exact Hserved]|].
          right.
          destruct Hcases as [[_ H] | (done & r & rest' & entries & resp' & e'
                                       & -> & Hok & -> & Hr & He)];
            [discriminate|].
          injection He as <-.
          exists (s :: done), r, rest', ((c, resp) :: entries), resp', e.
          split; [reflexivity|].
          split; [constructor; [now split | exact Hok]|].
          split; [reflexivity|]. split; [exact Hr | reflexivity].
        + rewrite (api_bind_done _ _ _ _ _ Erest). cbn [fst snd api_ret].
          exists ((c, resp) :: new).
          split; [rewrite Hnew; unfold w1; cbn [snd];
                  now rewrite <- app_assoc|].
          split; [cbn [served fst snd]; split; [reflexivity | exact Hserved]|].
          left.
          destruct Hcases as [[Hok H] | (done & r & rest' & entries & resp' & e'
                                         & _ & _ & _ & _ & He)];
            [|discriminate].
          injection H as ->.
          split; [constructor; [now split | exact Hok] | reflexivity]. }
    destruct s as [s|sk]; cbn [create_skill_names].
    + apply (Hstep (Skills_get server skills_project (PStr s))).
      * now rewrite Skills_get_run.
      * apply step_result_lookup.
    + apply (Hstep (Skills_create server skills_project (skill_name sk)
                                  (skill_type sk) (skill_params sk))).
      * now rewrite Skills_create_run.
      * apply step_result_creation.
Qed.

(** X12: [Agents.create] goes through the list of skills in the order given,
    one request per entry: a lookup for a name, a creation for a skill
    object, which is never looked up first.  Every entry of the log is what
    the server answered at that point.  Either the step of some entry fails,
    because the request did or because of what is made of its answer: then
    every entry before it went well, its request is the last one sent, the
    agent is not asked for, the call raises that error, and the server stays
    in the state it had reached, the earlier skills created.  Or every step
    goes well: then exactly one more request follows, the creation of the
    agent with the names of the list in order and with repetitions, and the
    call raises its error or returns its decoded answer. *)
Theorem agents_create_requests
        {St : Type} (server : api_call -> St -> outcome pyval * St)
        (project skills_project : string) (name model_name : pyval)
        (skills : option (list skill_ref)) (params : pyval) (w : world St) :
  let given := match skills with Some l => l | None => [] end in
  let run := Agents_create server project skills_project name model_name
                           skills params w in
  exists new,
    snd (snd run) = (snd w ++ new)%list
    /\ served server (fst w) new (fst (snd run))
    /\ ((exists done r rest entries resp e,
            given = (done ++ r :: rest)%list
            /\ Forall2 (entry_ok skills_project) done entries
            /\ new = (entries ++ [(skill_request skills_project r, resp)])%list
            /\ step_result r resp = Fail e
            /\ fst run = Fail e)
        \/ (exists entries resp,
               Forall2 (entry_ok skills_project) given entries
               /\ new = (entries
                           ++ [(ApiCreateAgent project name model_name
                                               (map ref_name given) params,
                                resp)])%list
               /\ fst run
                  = match resp with
                    | Fail e => Fail e
                    | Done data =>
                        match Agent_from_json data with
                        | Raise e => Fail (Builtin e)
                        | Ok agent => Done agent
                        end
                    end)).
Proof.
  intros given run. subst run. unfold Agents_create. fold given.
  destruct (create_skill_names_served server skills_project given w)
    as (new & Hnew & Hserved & Hcases).
  destruct (create_skill_names server skills_project given w)
    as [[e|names] w1] eqn:Eloop; cbn [fst snd] in Hnew, Hserved, Hcases.
  - rewrite (api_bind_fail _ _ _ _ _ Eloop). cbn [fst snd].
    exists new. split; [exact Hnew|]. split; [exact Hserved|].
    left.
    destruct Hcases as [[_ H] | (done & r & rest & entries & resp & e'
                                 & Hg & Hok & Hn & Hr & [= <-])];
      [discriminate|].
    exists done, r, rest, entries, resp, e. auto.
  - rewrite (api_bind_done _ _ _ _ _ Eloop).
    destruct Hcases as [[Hok [= ->]] | (done & r & rest & entries & resp & e
                                        & _ & _ & _ & _ & He)];
      [|discriminate].
    unfold api_bind. rewrite request_run.
    set (c := ApiCreateAgent project name model_name (map ref_name given) params).
    exists (new ++ [(c, fst (server c (fst w1)))])%list.
    assert (Hs : served server (fst w) (new ++ [(c, fst (server c (fst w1)))])
                        (snd (server c (fst w1)))).
    { now apply served_snoc. }
    destruct (fst (server c (fst w1))) as [e|data] eqn:Eresp; cbn [fst snd].
    + split; [rewrite Hnew; now rewrite <- app_assoc|].
      split; [exact Hs|]. right. exists new, (Fail e). auto.
    + rewrite lift_run. cbn [fst snd].
      split; [rewrite Hnew; now rewrite <- app_assoc|].
      split; [exact Hs|]. right. exists new, (Done data). auto.
Qed.

Lemma agents_create_requests_witness :
  let skills := [ByName "known"; ByName "missing";
                 ByObject (SQLSkill_init (PStr "new") (PList []) (PStr "db"))] in
  let run := Agents_create demo_server "p" "p" (PStr "a") (PStr "m")
                           (Some skills) PNone ([PStr "known"], []) in
  fst run = Fail (HTTPError 404)
  /\ snd run
     = ([PStr "known"],
        [(ApiSkill "p" (PStr "known"), Done (stored_skill (PStr "known")));
         (ApiSkill "p" (PStr "missing"), Fail (HTTPError 404))])
  /\ served demo_server [PStr "known"] (snd (snd run)) (fst (snd run)).
Proof.
  intros skills run.
  destruct (agents_create_requests demo_server "p" "p" (PStr "a") (PStr "m")
              (Some skills) PNone ([PStr "known"], []))
    as (new & Hnew & Hserved & _).
  split; [reflexivity|]. split; [reflexivity|].
  fold run in Hnew, Hserved.
  change (snd (snd run) = new) in Hnew. rewrite Hnew. exact Hserved.
Defined.

(** ** [Agents.update]: the order of the requests *)

Lemma creates_follow_404_app (a b : list (api_call * outcome pyval)) :
  (forall prev, creates_follow_404 prev a) ->
  (forall prev, creates_follow_404 prev b) ->
  forall prev, creates_follow_404 prev (a ++ b).
Proof.
  intros Ha Hb prev. specialize (Ha prev). revert prev Ha.
  induction a as [|x a IH]; intros prev Ha; [apply Hb|].
  cbn [app creates_follow_404] in *.
  split; [exact (proj1 Ha) | exact (IH (Some x) (proj2 Ha))].
Qed.

Lemma failures_end_run_app {A B : Type} (a : A) (r : outcome B)
      (new1 new2 : list (api_call * outcome pyval)) :
  failures_end_run (Done a) new1 ->
  failures_end_run r new2 ->
  failures_end_run r (new1 ++ new2).
Proof.
  intros H1 H2 pre c e post Heq.
  apply app_eq_app in Heq. destruct Heq as (l & [[E1 E2] | [E1 E2]]).
  - destruct l as [|x l].
    + cbn in E2. rewrite app_nil_r in E1. subst.
      now apply (H2 [] c e post).
    + cbn in E2. injection E2 as <- ->.
      destruct (H1 pre c e l E1) as [[_ H] | (p & n & t & ps & resp & post' & -> & -> & ->)];
        [discriminate|].
      right. exists p, n, t, ps, resp, (post' ++ new2)%list. auto.
  - apply (H2 l c e post E2).
Qed.

Lemma failures_end_run_fail {A B : Type} (e : error)
      (new : list (api_call * outcome pyval)) :
  failures_end_run (@Fail A e) new -> failures_end_run (@Fail B e) new.
Proof.
  intros H pre c e' post Heq.
  destruct (H pre c e' post Heq) as [[Hp [= ->]] | Hc]; [now left | now right].
Qed.

Section Orderly.

Context {St : Type} (server : api_call -> St -> outcome pyval * St).

Lemma orderly_ret {A : Type} (a : A) : orderly_run (St := St) (api_ret a).
Proof.
  intros w. exists []. cbn. rewrite app_nil_r. split; [reflexivity|].
  split; [intros prev; exact I|].
  intros [|] ? ? ? H; discriminate.
Qed.

Lemma orderly_raise {A : Type} (e : error) :
  orderly_run (St := St) (A := A) (api_raise e).
Proof.
  intros w. exists []. cbn. rewrite app_nil_r. split; [reflexivity|].
  split; [intros prev; exact I|].
  intros [|] ? ? ? H; discriminate.
Qed.

Lemma orderly_lift {A : Type} (r : result A) : orderly_run (St := St) (lift r).
Proof. destruct r; [apply orderly_raise | apply orderly_ret]. Qed.

Lemma orderly_bind {A B : Type} (c : Api St A) (k : A -> Api St B) :
  orderly_run c -> (forall a, orderly_run (k a)) -> orderly_run (api_bind c k).
Proof.
  intros Hc Hk w. destruct (Hc w) as (new1 & Hn1 & Hf1 & Hg1).
  destruct (c w) as [[e|a] w1] eqn:Ecw; cbn [fst snd] in *.
  - rewrite (api_bind_fail _ _ _ _ _ Ecw). exists new1. cbn [fst snd].
    split; [assumption|]. split; [assumption|].
    now apply (failures_end_run_fail (A := A)).
  - rewrite (api_bind_done _ _ _ _ _ Ecw).
    destruct (Hk a w1) as (new2 & Hn2 & Hf2 & Hg2).
    exists (new1 ++ new2)%list. rewrite Hn2, Hn1, <- app_assoc.
    split; [reflexivity|]. split.
    + now apply creates_follow_404_app.
    + now apply (failures_end_run_app a).
Qed.

Lemma failures_end_run_single {A : Type} (r : outcome A) (c : api_call)
      (resp : outcome pyval) :
  (forall e, resp = Fail e -> r = Fail e) ->
  failures_end_run r [(c, resp)].
Proof.
  intros H pre c' e post Heq.
  destruct pre as [|x pre]; cbn in Heq.
  - injection Heq as -> -> <-. left. split; [reflexivity | now apply H].
  - injection Heq as _ Heq. destruct pre; discriminate.
Qed.

Lemma orderly_request (c : api_call) :
  (forall p n t ps, c <> ApiCreateSkill p n t ps) ->
  orderly_run (request server c).
Proof.
  intros Hc w. rewrite request_run. cbn [fst snd].
  exists [(c, fst (server c (fst w)))]. split; [reflexivity|]. split.
  - intros prev. cbn. split; [|exact I].
    destruct c; try exact I. now elim (Hc project name type params).
  - now apply failures_end_run_single.
Qed.

Lemma orderly_Skills_get (project : string) (name : pyval) :
  orderly_run (Skills_get server project name).
Proof.
  apply orderly_bind; [apply orderly_request; discriminate|].
  intros data. apply orderly_lift.
Qed.

Lemma orderly_ensure_skill (skills_project : string) (sk : Skill) :
  orderly_run (ensure_skill server skills_project sk).
Proof.
  intros w. unfold ensure_skill. rewrite Skills_get_run.
  set (c := ApiSkill skills_project (skill_name sk)).
  destruct (server c (fst w)) as [resp st1]. cbn [fst snd].
  destruct resp as [e|data].
  - assert (Hplain : exists new,
               snd (@snd (outcome unit) _
                      (Fail e, (st1, (snd w ++ [(c, Fail e)])%list)))
               = (snd w ++ new)%list
               /\ orderly (@Fail unit e) new).
    { exists [(c, Fail e)]. split; [reflexivity|]. split.
      - intros prev. cbn. auto.
      - apply failures_end_run_single. now intros e0 [= ->]. }
    destruct e as [b|status| |]; try exact Hplain.
    destruct (Z.eqb_spec status 404) as [->|Hne]; cbn [negb]; [|exact Hplain].
    unfold api_bind. rewrite Skills_create_run. cbn [fst snd].
    set (c2 := ApiCreateSkill skills_project (skill_name sk) (skill_type sk)
                              (skill_params sk)).
    destruct (server c2 st1) as [resp2 st2]. cbn [fst snd].
    exists [(c, Fail (HTTPError 404)); (c2, resp2)].
    rewrite <- app_assoc. split.
    { destruct resp2 as [e2|v2]; [reflexivity|].
      destruct (Py.is_str "sql" (skill_type sk)); [|reflexivity].
      destruct (Py.getitem (skill_params sk) "tables"); [reflexivity|].
      now destruct (Py.getitem (skill_params sk) "database"). }
    split.
    + intros prev. cbn. auto.
    + intros pre c' e' post Heq.
      destruct pre as [|x pre]; cbn in Heq.
      * injection Heq as <- <- <-. right.
        exists skills_project, (skill_name sk), (skill_type sk),
          (skill_params sk), resp2, []. auto.
      * injection Heq as _ Heq. destruct pre as [|y pre]; cbn in Heq.
        -- injection Heq as <- Hr <-. left. split; [reflexivity|].
           now rewrite Hr.
        -- injection Heq as _ Heq. destruct pre; discriminate.
  - exists [(c, Done data)]. split.
    + now destruct (Skill_from_json data).
    + split; [intros prev; cbn; auto|].
      apply failures_end_run_single. discriminate.
Qed.

Lemma orderly_update_skill_set (skills_project : string)
      (skills : list skill_ref) :
  forall updated, orderly_run (update_skill_set server skills_project skills updated).
Proof.
  induction skills as [|[s|sk] rest IH]; intros updated;
    cbn [update_skill_set].
  - apply orderly_ret.
  - apply orderly_bind; [apply orderly_Skills_get|]. intros _.
    apply orderly_bind; [apply orderly_lift | exact IH].
  - apply orderly_bind; [apply orderly_ensure_skill|]. intros _.
    apply orderly_bind; [apply orderly_lift | exact IH].
Qed.

Lemma orderly_attr_names (items : list pyval) :
  orderly_run (St := St) (attr_names items).
Proof.
  induction items as [|s rest IH]; cbn [attr_names]; [apply orderly_ret|].
  apply orderly_bind; [apply orderly_raise|]. intros n.
  apply orderly_bind; [exact IH|]. intros ns. apply orderly_ret.
Qed.

End Orderly.


(** ** [Agents.update]: the stored skills *)

Section StoredSkills.

Context {St : Type} (server : api_call -> St -> outcome pyval * St).

Lemma skill_calls_ret {A : Type} (a : A) : skill_calls_only (St := St) (api_ret a).
Proof. intros w. exists []. cbn. now rewrite app_nil_r. Qed.

Lemma skill_calls_lift {A : Type} (r : result A) :
  skill_calls_only (St := St) (lift r).
Proof. intros w. exists []. rewrite lift_run. cbn. now rewrite app_nil_r. Qed.

Lemma skill_calls_bind {A B : Type} (c : Api St A) (k : A -> Api St B) :
  skill_calls_only c -> (forall a, skill_calls_only (k a)) ->
  skill_calls_only (api_bind c k).
Proof.
  intros Hc Hk w. destruct (Hc w) as (new1 & Hn1 & Hs1).
  destruct (c w) as [[e|a] w1] eqn:Ecw; cbn [fst snd] in *.
  - rewrite (api_bind_fail _ _ _ _ _ Ecw). now exists new1.
  - rewrite (api_bind_done _ _ _ _ _ Ecw).
    destruct (Hk a w1) as (new2 & Hn2 & Hs2).
    exists (new1 ++ new2)%list. rewrite Hn2, Hn1, <- app_assoc.
    split; [reflexivity|]. now rewrite forallb_app, Hs1, Hs2.
Qed.

Lemma skill_calls_Skills_get (project : string) (name : pyval) :
  skill_calls_only (Skills_get server project name).
Proof.
  intros w. rewrite Skills_get_run. cbn [snd].
  now exists [(ApiSkill project name,
               fst (server (ApiSkill project name) (fst w)))].
Qed.

Lemma skill_calls_Skills_create (project : string) (name type params : pyval) :
  skill_calls_only (Skills_create server project name type params).
Proof.
  intros w. rewrite Skills_create_run. cbn [snd].
  now exists [(ApiCreateSkill project name type params,
               fst (server (ApiCreateSkill project name type params) (fst w)))].
Qed.

Lemma skill_calls_ensure_skill (skills_project : string) (sk : Skill) :
  skill_calls_only (ensure_skill server skills_project sk).
Proof.
  intros w. unfold ensure_skill.
  destruct (skill_calls_Skills_get skills_project (skill_name sk) w)
    as (new1 & Hn1 & Hs1).
  destruct (Skills_get server skills_project (skill_name sk) w)
    as [[e|s] w1]; cbn [fst snd] in *; [|now exists new1].
  destruct e as [b|status| |]; try (now exists new1).
  destruct (negb (Z.eqb status 404)); [now exists new1|].
  destruct (skill_calls_bind
              (Skills_create server skills_project (skill_name sk)
                             (skill_type sk) (skill_params sk))
              (fun _ => api_ret tt)
              (skill_calls_Skills_create _ _ _ _)
              (fun _ => skill_calls_ret tt) w1) as (new2 & Hn2 & Hs2).
  exists (new1 ++ new2)%list. rewrite Hn2, Hn1, <- app_assoc.
  split; [reflexivity|]. now rewrite forallb_app, Hs1, Hs2.
Qed.

Lemma skill_calls_update_skill_set (skills_project : string)
      (skills : list skill_ref) :
  forall updated,
    skill_calls_only (update_skill_set server skills_project skills updated).
Proof.
  induction skills as [|[s|sk] rest IH]; intros updated;
    cbn [update_skill_set].
  - apply skill_calls_ret.
  - apply skill_calls_bind; [apply skill_calls_Skills_get|]. intros _.
    apply skill_calls_bind; [apply skill_calls_lift | exact IH].
  - apply skill_calls_bind; [apply skill_calls_ensure_skill|]. intros _.
    apply skill_calls_bind; [apply skill_calls_lift | exact IH].
Qed.

Lemma update_skill_set_names (skills_project : string)
      (skills : list skill_ref) :
  forall updated (w : world St) u,
    fst (update_skill_set server skills_project skills updated w) = Done u ->
    set_of_list (map ref_name skills) updated = Ok u.
Proof.
  induction skills as [|r rest IH]; intros updated w u H.
  - cbn in H. now injection H as ->.
  - assert (Hstep : forall (c : Api St unit),
               fst (api_bind c (fun _ =>
                      api_bind (lift (set_add (ref_name r) updated))
                               (fun u' =>
                                  update_skill_set server skills_project rest u'))
                      w) = Done u ->
               set_of_list (map ref_name (r :: rest)) updated = Ok u).
    { intros c Hc. unfold api_bind at 1 in Hc.
      destruct (c w) as [[e|[]] w1]; [discriminate|].
      unfold api_bind in Hc. rewrite lift_run in Hc.
      cbn [map set_of_list].
      destruct (set_add (ref_name r) updated) as [e|u']; [discriminate|].
      cbn [bind]. now apply (IH u' w1). }
    destruct r as [s|sk]; cbn [update_skill_set] in H.
    + apply (Hstep (api_bind (Skills_get server skills_project (PStr s))
                             (fun _ => api_ret tt))).
      unfold api_bind in *.
      destruct (Skills_get server skills_project (PStr s) w) as [[e|x] w1];
        [discriminate | exact H].
    + apply (Hstep (ensure_skill server skills_project sk)). exact H.
Qed.

Lemma attr_names_run (items : list pyval) (w : world St) :
  attr_names items w
  = (match items with
     | [] => Done []
     | _ :: _ => Fail AttributeError
     end, w).
Proof. now destruct items. Qed.

Lemma set_difference_nil_r (a : list pyval) : set_difference a [] = a.
Proof.
  unfold set_difference. induction a as [|x a IH]; [reflexivity|].
  cbn [filter set_mem existsb negb]. f_equal. exact IH.
Qed.

Lemma send_update_run (list_of_set : list pyval -> list pyval)
      (project : string) (name : pyval) (updated_agent : Agent)
      (updated : list pyval) (w1 : world St) :
  let c := ApiAgent project name in
  let c2 := ApiUpdateAgent project name (agent_name updated_agent)
              (agent_model_name updated_agent) (list_of_set updated)
              (list_of_set []) (agent_params updated_agent) in
  send_update server list_of_set project name updated_agent updated w1
  = match server c (fst w1) with
    | (Fail e, st2) => (Fail e, (st2, (snd w1 ++ [(c, Fail e)])%list))
    | (Done data, st2) =>
        let log1 := (snd w1 ++ [(c, Done data)])%list in
        match Py.getitem data "skills" with
        | Raise e => (Fail (Builtin e), (st2, log1))
        | Ok skills_json =>
            match Py.iter skills_json with
            | Raise e => (Fail (Builtin e), (st2, log1))
            | Ok (_ :: _) => (Fail AttributeError, (st2, log1))
            | Ok [] =>
                match server c2 st2 with
                | (Fail e, st3) =>
                    (Fail e, (st3, (log1 ++ [(c2, Fail e)])%list))
                | (Done data2, st3) =>
                    (match Agent_from_json data2 with
                     | Raise e => Fail (Builtin e)
                     | Ok agent => Done agent
                     end, (st3, (log1 ++ [(c2, Done data2)])%list))
                end
            end
        end
    end.
Proof.
  intros c c2. unfold send_update, api_bind. fold c. rewrite request_run.
  destruct (server c (fst w1)) as [[e|data] st2]; cbn [fst snd]; [reflexivity|].
  rewrite lift_run.
  destruct (Py.getitem data "skills") as [e|sj]; [reflexivity|].
  rewrite lift_run.
  destruct (Py.iter sj) as [e|[|s items]]; [reflexivity| |reflexivity].
  rewrite attr_names_run, lift_run. cbn [set_of_list].
  rewrite set_difference_nil_r.
  change (set_difference [] updated) with (@nil pyval). fold c2.
  rewrite request_run. cbn [fst snd].
  destruct (server c2 st2) as [[e|data2] st3]; cbn [fst snd]; [reflexivity|].
  now rewrite lift_run.
Qed.

End StoredSkills.

(** X14: [Agents.update] reads the names of the stored skills as attributes
    of the values the server sent.  With a server that answers in decoded
    JSON this fails on the first stored skill: whenever the agent as stored
    has at least one skill, the update ends in an AttributeError after the
    skills of the new version have been looked up or created, and no update
    is sent.  So an update request is only ever sent for an agent stored
    without skills; it asks to add the set of the new names and to remove
    nothing. *)
Theorem agents_update_stored_skills
        {St : Type} (server : api_call -> St -> outcome pyval * St)
        (list_of_set : list pyval -> list pyval)
        (project skills_project : string) (name : pyval) (updated_agent : Agent)
        (w : world St) :
  let run := Agents_update server list_of_set project skills_project name
                           updated_agent w in
  exists new,
    snd (snd run) = (snd w ++ new)%list
    /\ (forall data skills_json s items,
           In (ApiAgent project name, Done data) new ->
           Py.getitem data "skills" = Ok skills_json ->
           Py.iter skills_json = Ok (s :: items) ->
           fst run = Fail AttributeError
           /\ filter is_update_agent new = [])
    /\ (forall e,
           In e new -> is_update_agent e = true ->
           exists updated data skills_json,
             set_of_list (map ref_name (agent_skills updated_agent)) []
             = Ok updated
             /\ fst e = ApiUpdateAgent project name
                                       (agent_name updated_agent)
                                       (agent_model_name updated_agent)
                                       (list_of_set updated)
                                       (list_of_set [])
                                       (agent_params updated_agent)
             /\ In (ApiAgent project name, Done data) new
             /\ Py.getitem data "skills" = Ok skills_json
             /\ Py.iter skills_json = Ok []).
Proof.
  intros run. subst run. unfold Agents_update.
  destruct (skill_calls_update_skill_set server skills_project
              (agent_skills updated_agent) [] w) as (new1 & Hn1 & Hs1).
  pose proof (update_skill_set_names server skills_project
                (agent_skills updated_agent) [] w) as Hnames.
  assert (Hno : forall e, In e new1 -> is_skill_call e = true).
  { intros e. rewrite forallb_forall in Hs1. apply Hs1. }
  assert (Hnoagent : forall data, ~ In (ApiAgent project name, Done data) new1).
  { intros data Hin. now apply Hno in Hin. }
  assert (Hnoupdate : forall e, In e new1 -> is_update_agent e = true -> False).
  { intros e Hin Hu. apply Hno in Hin.
    unfold is_skill_call, is_update_agent in *. destruct (fst e); discriminate. }
  assert (Hfilter : filter is_update_agent new1 = []).
  { clear -Hnoupdate. induction new1 as [|x l IH]; [reflexivity|].
    cbn [filter]. destruct (is_update_agent x) eqn:E.
    - exfalso. apply (Hnoupdate x); [now left | exact E].
    - apply IH. intros e Hin. apply Hnoupdate. now right. }
  destruct (update_skill_set server skills_project
              (agent_skills updated_agent) [] w) as [[e|updated] w1] eqn:Eloop;
    cbn [fst snd] in *.
  { rewrite (api_bind_fail _ _ _ _ _ Eloop). cbn [fst snd].
    exists new1. split; [exact Hn1|]. split.
    - intros data sj s items Hin. now elim (Hnoagent data).
    - intros x Hin Hu. now elim (Hnoupdate x). }
  rewrite (api_bind_done _ _ _ _ _ Eloop).
  specialize (Hnames updated eq_refl).
  rewrite send_update_run.
  set (c := ApiAgent project name).
  set (c2 := ApiUpdateAgent project name (agent_name updated_agent)
               (agent_model_name updated_agent) (list_of_set updated)
               (list_of_set []) (agent_params updated_agent)).
  assert (Hshort : forall (r : outcome Agent) (resp' : outcome pyval) (st2 : St),
             (forall data sj s items,
                 resp' = Done data -> Py.getitem data "skills" = Ok sj ->
                 Py.iter sj = Ok (s :: items) -> r = Fail AttributeError) ->
             exists new,
               snd (@snd (outcome Agent) _
                      (r, (st2, (snd w1 ++ [(c, resp')])%list)))
               = (snd w ++ new)%list
               /\ (forall data skills_json s items,
                      In (c, Done data) new ->
                      Py.getitem data "skills" = Ok skills_json ->
                      Py.iter skills_json = Ok (s :: items) ->
                      fst (r, (st2, (snd w1 ++ [(c, resp')])%list))
                      = Fail AttributeError
                      /\ filter is_update_agent new = [])
               /\ (forall e,
                      In e new -> is_update_agent e = true ->
                      exists updated0 data skills_json,
                        set_of_list (map ref_name (agent_skills updated_agent)) []
                        = Ok updated0
                        /\ fst e = ApiUpdateAgent project name
                                     (agent_name updated_agent)
                                     (agent_model_name updated_agent)
                                     (list_of_set updated0) (list_of_set [])
                                     (agent_params updated_agent)
                        /\ In (c, Done data) new
                        /\ Py.getitem data "skills" = Ok skills_json
                        /\ Py.iter skills_json = Ok [])).
  { intros r resp' st2 Hr. exists (new1 ++ [(c, resp')])%list. cbn [fst snd].
    split; [rewrite Hn1, <- app_assoc; reflexivity|]. split.
    - intros data sj s items Hin Hg Hi.
      apply in_app_or in Hin. destruct Hin as [Hin | [[= Hresp] | []]];
        [now elim (Hnoagent data)|].
      split; [now apply (Hr data sj s items)|].
      now rewrite filter_app, Hfilter.
    - intros x Hin Hu. apply in_app_or in Hin.
      destruct Hin as [Hin | [<- | []]]; [now elim (Hnoupdate x) | discriminate]. }
  destruct (server c (fst w1)) as [[e|data] st2];
    [apply Hshort; discriminate|].
  cbv zeta.
  destruct (Py.getitem data "skills") as [e|sj] eqn:Eget;
    [apply Hshort; intros ? ? ? ? [= <-]; congruence|].
  destruct (Py.iter sj) as [e|[|s items]] eqn:Eiter;
    [apply Hshort; intros ? ? ? ? [= <-]; congruence
    | | apply Hshort; reflexivity].
  assert (Hlast : forall (r : outcome Agent) (resp2 : outcome pyval) (st3 : St),
             exists new,
               snd (@snd (outcome Agent) _
                      (r, (st3, ((snd w1 ++ [(c, Done data)])
                                   ++ [(c2, resp2)])%list)))
               = (snd w ++ new)%list
               /\ (forall data' skills_json s items,
                      In (c, Done data') new ->
                      Py.getitem data' "skills" = Ok skills_json ->
                      Py.iter skills_json = Ok (s :: items) ->
                      fst (r, (st3, ((snd w1 ++ [(c, Done data)])
                                       ++ [(c2, resp2)])%list))
                      = Fail AttributeError
                      /\ filter is_update_agent new = [])
               /\ (forall e,
                      In e new -> is_update_agent e = true ->
                      exists updated0 data' skills_json,
                        set_of_list (map ref_name (agent_skills updated_agent)) []
                        = Ok updated0
                        /\ fst e = ApiUpdateAgent project name
                                     (agent_name updated_agent)
                                     (agent_model_name updated_agent)
                                     (list_of_set updated0) (list_of_set [])
                                     (agent_params updated_agent)
                        /\ In (c, Done data') new
                        /\ Py.getitem data' "skills" = Ok skills_json
                        /\ Py.iter skills_json = Ok [])).
  { intros r resp2 st3.
    exists (new1 ++ [(c, Done data); (c2, resp2)])%list. cbn [fst snd].
    split; [rewrite Hn1, <- !app_assoc; reflexivity|]. split.
    - intros data' sj' s items Hin Hg Hi.
      apply in_app_or in Hin.
      destruct Hin as [Hin | [[= <-] | [Hin | []]]];
        [now elim (Hnoagent data') | congruence | discriminate].
    - intros x Hin Hu. apply in_app_or in Hin.
      destruct Hin as [Hin | [<- | [<- | []]]];
        [now elim (Hnoupdate x) | discriminate |].
      exists updated, data, sj. repeat split; try assumption.
      apply in_or_app. right. now left. }
  destruct (server c2 st2) as [[e|data2] st3]; apply Hlast.
Qed.

Lemma agents_update_stored_skills_witness :
  let agent := mk_Agent (PStr "a") (PStr "m") [ByName "known"] (PDict [])
                        PNone PNone in
  let run := Agents_update demo_server (fun l => l) "p" "p" (PStr "a") agent
                           ([PStr "known"], []) in
  fst run = Fail AttributeError
  /\ filter is_update_agent (snd (snd run)) = [].
Proof.
  intros agent run.
  destruct (agents_update_stored_skills demo_server (fun l => l) "p" "p"
              (PStr "a") agent ([PStr "known"], []))
    as (new & Hnew & Hattr & _).
  fold run in Hnew, Hattr. cbn [snd app] in Hnew. rewrite Hnew.
  apply (Hattr (stored_agent (PStr "a") [PStr "known"])
               (PList [stored_skill (PStr "known")])
               (stored_skill (PStr "known")) []);
    [|reflexivity|reflexivity].
  rewrite <- Hnew. cbn. auto.
Defined.

(** * model.py *)

Lemma dict_get_set_same (k : string) (v : pyval) (d : list (string * pyval)) :
  Py.dict_get k (dict_set k v d) = Some v.
Proof.
  induction d as [|[k' v'] d IH]; cbn [dict_set Py.dict_get].
  - now rewrite String.eqb_refl.
  - destruct (String.eqb k k') eqn:E; cbn [Py.dict_get].
    + now rewrite String.eqb_refl.
    + now rewrite E.
Qed.

Lemma dict_get_set_other (k k0 : string) (v : pyval)
      (d : list (string * pyval)) :
  k0 <> k -> Py.dict_get k0 (dict_set k v d) = Py.dict_get k0 d.
Proof.
  intros Hne. apply String.eqb_neq in Hne.
  induction d as [|[k' v'] d IH]; cbn [dict_set Py.dict_get].
  - now rewrite Hne.
  - destruct (String.eqb k k') eqn:E; cbn [Py.dict_get].
    + apply String.eqb_eq in E. subst k'. now rewrite Hne.
    + now rewrite IH.
Qed.

Lemma dict_set_not_empty (k : string) (v : pyval) (d : list (string * pyval)) :
  dict_set k v d <> [].
Proof.
  destruct d as [|[k' v'] d]; cbn; [discriminate|].
  now destruct (String.eqb k k').
Qed.

(** X15: in [Model._retrain] a given engine always reaches the statement: it
    is sent under the key engine, in place of any engine the options named,
    and every other option is sent unchanged.  The engine is written into the
    caller's own dict: retraining again with that dict and no engine sends
    the same options, engine included.  Without an engine, empty or absent
    options are sent as None. *)
Theorem retrain_engine_option
        (options : option (list (string * pyval))) (engine : pyval) :
  let d := match options with Some d => d | None => [] end in
  let first := retrain_using options (Some engine) in
  (exists sent,
      fst first = Some sent
      /\ Py.dict_get "engine" sent = Some engine
      /\ (forall k, k <> "engine" -> Py.dict_get k sent = Py.dict_get k d)
      /\ (forall d0, options = Some d0 ->
                     snd first = Some sent
                     /\ fst (retrain_using (snd first) None) = Some sent))
  /\ (d = [] -> fst (retrain_using options None) = None).
Proof.
  intros d first. subst first. unfold retrain_using. fold d. split.
  - exists (dict_set "engine" engine d). cbn [fst snd].
    pose proof (dict_set_not_empty "engine" engine d) as Hne.
    split; [now destruct (dict_set "engine" engine d)|].
    split; [apply dict_get_set_same|].
    split; [intros k Hk; now apply dict_get_set_other|].
    intros d0 ->. split; [reflexivity|].
    now destruct (dict_set "engine" engine d).
  - intros Hd. cbn [fst]. now rewrite Hd.
Qed.

Lemma retrain_engine_option_witness :
  fst (retrain_using (Some []) None) = None.
Proof.
  apply (proj2 (retrain_engine_option (Some []) (PStr "lightwood"))).
  reflexivity.
Defined.
